(** * Smart Vision Bot: frame buffer, speech queue, router and session logic

    A shallow embedding of the Python sources
      - [camera/stream.py]   (class [VideoStream], the drop-oldest frame buffer),
      - [audio/tts.py]       (class [TTSEngine], the speech queue),
      - [chatbot/router.py]  (function [route]),
      - [app.py]             (class [SmartVisionBot], greeting and chat session),
    followed by the properties of each.

    Conventions.  A Python [str] is the list of its Unicode code points.
    A call that may raise an [Exception] returns a [py_result].  Threads are
    modelled by making explicit, as an argument, what the other thread did
    in the window that matters. *)

From Stdlib Require Import List Bool Arith ZArith NArith QArith Lia.
From Stdlib Require Import Ascii String DecimalString.
Import ListNotations.
Close Scope Q_scope.

Set Implicit Arguments.

(* ===================================================================== *)
(** * Python values shared by all modules *)
(* ===================================================================== *)

Module Py.

(** A [str]: the sequence of its code points. *)
Definition str := list N.

(** An ASCII literal as a [str]. *)
Definition lit (s : string) : str :=
  map N_of_ascii (list_ascii_of_string s).

Definition str_eqb (a b : str) : bool :=
  if list_eq_dec N.eq_dec a b then true else false.

(** Outcome of a call: a value, or an [Exception] whose [str(e)] is [msg]. *)
Inductive py_result (A : Type) : Type :=
| Returned (a : A)
| Raised (msg : str).
Arguments Raised {A} msg.

(** [str.isspace] on one code point (the Unicode white-space characters). *)
Definition isspace (c : N) : bool :=
  ((9 <=? c) && (c <=? 13) || (28 <=? c) && (c <=? 32)
   || (c =? 133) || (c =? 160) || (c =? 5760)
   || (8192 <=? c) && (c <=? 8202)
   || (c =? 8232) || (c =? 8233) || (c =? 8239) || (c =? 8287)
   || (c =? 12288))%N.

Fixpoint lstrip (s : str) : str :=
  match s with
  | [] => []
  | c :: r => if isspace c then lstrip r else s
  end.

Definition rstrip (s : str) : str := rev (lstrip (rev s)).

(** [s.strip()] *)
Definition strip (s : str) : str := rstrip (lstrip s).

(** [s.split()]: the maximal runs of non-space characters.  [cur] is the
    word being read. *)
Fixpoint split_from (cur : str) (s : str) : list str :=
  match s with
  | [] => match cur with [] => [] | _ => [cur] end
  | c :: r =>
      if isspace c
      then match cur with
           | [] => split_from [] r
           | _ => cur :: split_from [] r
           end
      else split_from (cur ++ [c]) r
  end.

Definition split (s : str) : list str := split_from [] s.

(** [sep.join(words)] *)
Fixpoint join (sep : str) (words : list str) : str :=
  match words with
  | [] => []
  | [w] => w
  | w :: ws => w ++ sep ++ join sep ws
  end.

Fixpoint starts_with (p s : str) : bool :=
  match p, s with
  | [], _ => true
  | _ :: _, [] => false
  | a :: p', b :: s' => (a =? b)%N && starts_with p' s'
  end.

(** [s.replace(old, new)]: non-overlapping occurrences, left to right.
    [skip] counts the characters of a match still to be passed over. *)
Fixpoint replace_from (old new : str) (skip : nat) (s : str) : str :=
  match s with
  | [] => []
  | c :: r =>
      match skip with
      | S k => replace_from old new k r
      | O => if starts_with old s
             then new ++ replace_from old new (List.length old - 1) r
             else c :: replace_from old new 0 r
      end
  end.

Definition replace (old new : str) (s : str) : str :=
  match old with
  | [] => new ++ flat_map (fun c => c :: new) s
  | _ => replace_from old new 0 s
  end.

(** [old in s] *)
Fixpoint contains (old s : str) : bool :=
  starts_with old s ||
  match s with
  | [] => false
  | _ :: r => contains old r
  end.

(** [s.lower()] on the ASCII letters.  The tests of this program compare
    the result with ASCII words none of which has a letter that a
    non-ASCII character lowers to, so for them this is [str.lower]. *)
Definition lower_char (c : N) : N :=
  if ((65 <=? c) && (c <=? 90))%N then (c + 32)%N else c.

Definition lower (s : str) : str := map lower_char s.

(** One entry of a chat history: the dictionary [{"role": .., "content": ..}]. *)
Record message : Type := mkMessage { role : str; content : str }.

(** [str(n)] for a natural number. *)
Definition str_of_nat (n : nat) : str :=
  lit (NilEmpty.string_of_uint (Nat.to_uint n)).

End Py.

(* ===================================================================== *)
(** * camera/stream.py *)
(* ===================================================================== *)

Module Stream.
Import Py.

Section Frames.

(** A frame is whatever [cv2.VideoCapture.read] delivers. *)
Variable frame : Type.

(** The fields of [VideoStream] that the buffer logic uses.  [Q] is the
    content of the [queue.Queue], oldest frame first; [maxsize] its
    [maxsize]; [cap_opened] tells whether the camera is still open. *)
Record VideoStream : Type := mkVideoStream {
  Q : list frame;
  maxsize : Z;
  stopped : bool;
  cap_opened : bool
}.

(** [VideoStream.__init__]: no statement of the constructor raises, whatever
    [queue_size] is; [queue.Queue(maxsize=n)] accepts every integer. *)
Definition init (queue_size : Z) (camera_ok : bool) : py_result VideoStream :=
  Returned {| Q := []; maxsize := queue_size; stopped := false;
              cap_opened := camera_ok |}.

Definition qsize (vs : VideoStream) : Z := Z.of_nat (List.length (Q vs)).

(** [Queue.full]: [0 < maxsize <= qsize]. *)
Definition full (vs : VideoStream) : bool :=
  (0 <? maxsize vs)%Z && (maxsize vs <=? qsize vs)%Z.

Definition set_Q (vs : VideoStream) (q : list frame) : VideoStream :=
  {| Q := q; maxsize := maxsize vs; stopped := stopped vs;
     cap_opened := cap_opened vs |}.

(** What one pass of the producer loop did with its frame. *)
Inductive pushed : Type :=
| ReadFailed      (* [ret] was false: nothing pushed *)
| Appended        (* [put] on a buffer that was not full *)
| Replaced        (* [get_nowait] then [put] *)
| Dropped         (* [get_nowait] raised [queue.Empty]: the frame is lost *)
| Blocked.        (* [put] on a full buffer: the producer waits *)

(** [Queue.put(frame)] with the default [block=True]: waits while
    [maxsize > 0] and [qsize >= maxsize]. *)
Definition put (f : frame) (vs : VideoStream) : option VideoStream :=
  if full vs then None else Some (set_Q vs (Q vs ++ [f])).

(** Consumers dequeue [n] frames (fewer when the buffer runs out). *)
Definition consumed (n : nat) (vs : VideoStream) : VideoStream :=
  set_Q vs (skipn n (Q vs)).

(** One pass through the body of the [while] loop of [update], for the
    camera result [(ret, f)].  The consumer threads run concurrently:
    [taken1] frames are dequeued between the producer's [full()] test and
    its next queue operation, [taken2] between [get_nowait] and [put]. *)
Definition update_body (ret : bool) (f : frame) (taken1 taken2 : nat)
    (vs : VideoStream) : VideoStream * pushed :=
  if negb ret then (vs, ReadFailed)
  else if negb (full vs) then
    let vs1 := consumed taken1 vs in
    match put f vs1 with
    | Some vs2 => (vs2, Appended)
    | None => (vs1, Blocked)
    end
  else
    let vs1 := consumed taken1 vs in
    match Q vs1 with
    | [] => (vs1, Dropped)
    | _ :: rest =>
        let vs2 := consumed taken2 (set_Q vs1 rest) in
        match put f vs2 with
        | Some vs3 => (vs3, Replaced)
        | None => (vs2, Blocked)
        end
    end.

(** A push with no consumer running in between. *)
Definition push (f : frame) (vs : VideoStream) : VideoStream * pushed :=
  update_body true f 0 0 vs.

(** A run of the producer: each entry is one camera read with the consumer
    activity around that pass ([cap_taken0] frames are dequeued before the
    pass starts). *)
Record capture : Type := mkCapture {
  cap_ret : bool;
  cap_frame : frame;
  cap_taken0 : nat;
  cap_taken1 : nat;
  cap_taken2 : nat
}.

(** [VideoStream.update]: the loop runs until [stopped] is seen. *)
Fixpoint update (cs : list capture) (vs : VideoStream)
  : VideoStream * list pushed :=
  if stopped vs then (vs, [])
  else
    match cs with
    | [] => (vs, [])
    | c :: rest =>
        let '(vs1, o) := update_body (cap_ret c) (cap_frame c)
                           (cap_taken1 c) (cap_taken2 c)
                           (consumed (cap_taken0 c) vs) in
        let '(vs2, os) := update rest vs1 in
        (vs2, o :: os)
    end.

(** Captures that all succeed, with no consumer running. *)
Definition pushes (fs : list frame) : list capture :=
  map (fun f => mkCapture true f 0 0 0) fs.

(** The last [n] elements of a list. *)
Definition keep_last (n : nat) (l : list frame) : list frame :=
  skipn (List.length l - n) l.

(** [VideoStream.read]: [Q.get(timeout=1.0)], [None] on [queue.Empty].
    [arrival] is the frame, if any, that the producer puts within the
    second the caller waits on an empty buffer. *)
Definition read (arrival : option frame) (vs : VideoStream)
  : option frame * VideoStream :=
  match Q vs with
  | f :: rest => (Some f, set_Q vs rest)
  | [] => (arrival, vs)
  end.

(** [VideoStream.is_opened] *)
Definition is_opened (vs : VideoStream) : bool := cap_opened vs.

(** [VideoStream.stop]: raises the flag, waits for the thread, releases
    the camera.  The queue is left as it is. *)
Definition stop (vs : VideoStream) : VideoStream :=
  {| Q := Q vs; maxsize := maxsize vs; stopped := true; cap_opened := false |}.

(** ** Properties of the buffer *)

Definition is_blocked (o : pushed) : bool :=
  match o with Blocked => true | _ => false end.

(** The buffer respects its bound. *)
Definition bounded (vs : VideoStream) : Prop :=
  (0 < maxsize vs)%Z /\ (qsize vs <= maxsize vs)%Z.

Lemma qsize_set_Q vs q : qsize (set_Q vs q) = Z.of_nat (List.length q).
Proof. reflexivity. Qed.

Lemma full_false_room vs :
  (0 < maxsize vs)%Z -> full vs = false -> (qsize vs < maxsize vs)%Z.
Proof.
  unfold full. intros Hpos H.
  apply andb_false_iff in H. destruct H as [H | H].
  - apply Z.ltb_ge in H. lia.
  - apply Z.leb_gt in H. exact H.
Qed.

Lemma full_true_at_capacity vs :
  full vs = true -> (0 < maxsize vs)%Z /\ (maxsize vs <= qsize vs)%Z.
Proof.
  unfold full. intros H. apply andb_true_iff in H. destruct H as [H1 H2].
  apply Z.ltb_lt in H1. apply Z.leb_le in H2. auto.
Qed.

Lemma put_room f vs :
  (qsize vs < maxsize vs)%Z -> put f vs = Some (set_Q vs (Q vs ++ [f])).
Proof.
  intros H. unfold put, full.
  replace (maxsize vs <=? qsize vs)%Z with false.
  - now rewrite andb_false_r.
  - symmetry. apply Z.leb_gt. exact H.
Qed.

Lemma consumed_qsize n vs : (qsize (consumed n vs) <= qsize vs)%Z.
Proof.
  unfold consumed. rewrite qsize_set_Q. unfold qsize.
  rewrite length_skipn. lia.
Qed.

Lemma consumed_bounded n vs : bounded vs -> bounded (consumed n vs).
Proof.
  intros [Hpos Hle]. split; [exact Hpos |].
  pose proof (consumed_qsize n vs). simpl. lia.
Qed.

Lemma put_bounded f vs :
  (0 < maxsize vs)%Z -> (qsize vs < maxsize vs)%Z ->
  bounded (set_Q vs (Q vs ++ [f])).
Proof.
  intros Hpos Hlt. split; [exact Hpos |].
  rewrite qsize_set_Q, length_app. simpl. unfold qsize in Hlt. lia.
Qed.

(** One pass keeps the bound, never finds [put] blocked, and leaves the
    configuration of the stream alone. *)
Lemma update_body_bounded ret f t1 t2 vs :
  bounded vs ->
  let r := update_body ret f t1 t2 vs in
  bounded (fst r) /\ maxsize (fst r) = maxsize vs /\
  stopped (fst r) = stopped vs /\ is_blocked (snd r) = false.
Proof.
  intros Hb. pose proof Hb as [Hpos Hle]. unfold update_body.
  destruct ret; simpl negb; cbv iota.
  2: { simpl. repeat split; assumption. }
  destruct (full vs) eqn:Hfull; simpl negb; cbv iota.
  - (* at capacity: evict, then put *)
    destruct (Q (consumed t1 vs)) as [| oldest rest] eqn:HQ.
    + simpl fst. simpl snd.
      split; [now apply consumed_bounded | repeat split; reflexivity].
    + set (vs2 := consumed t2 (set_Q (consumed t1 vs) rest)).
      assert (Hrest : (Z.of_nat (List.length rest) < maxsize vs)%Z).
      { pose proof (consumed_qsize t1 vs) as Hc. unfold qsize in Hc.
        rewrite HQ in Hc. simpl List.length in Hc. unfold qsize in Hle. lia. }
      assert (Hroom : (qsize vs2 < maxsize vs2)%Z).
      { pose proof (consumed_qsize t2 (set_Q (consumed t1 vs) rest)) as Hc.
        rewrite qsize_set_Q in Hc. subst vs2.
        change (maxsize (consumed t2 (set_Q (consumed t1 vs) rest)))
          with (maxsize vs). lia. }
      rewrite (put_room f _ Hroom). simpl fst. simpl snd.
      split; [| repeat split; reflexivity].
      apply (put_bounded f vs2); [exact Hpos | exact Hroom].
  - (* room left: put *)
    pose proof (full_false_room vs Hpos Hfull) as Hlt.
    set (vs1 := consumed t1 vs).
    assert (Hroom : (qsize vs1 < maxsize vs1)%Z).
    { pose proof (consumed_qsize t1 vs). subst vs1.
      change (maxsize (consumed t1 vs)) with (maxsize vs). lia. }
    rewrite (put_room f _ Hroom). simpl fst. simpl snd.
    split; [| repeat split; reflexivity].
    apply (put_bounded f vs1); [exact Hpos | exact Hroom].
Qed.


(** A push at capacity, the consumers leaving at least one frame in the
    window: the head is evicted and the new frame becomes the newest. *)
Lemma update_body_replaces f t1 t2 vs :
  bounded vs -> full vs = true -> t1 < List.length (Q vs) ->
  update_body true f t1 t2 vs
  = (set_Q vs (skipn t2 (skipn (S t1) (Q vs)) ++ [f]), Replaced).
Proof.
  intros Hb Hfull Ht.
  pose proof (update_body_bounded true f t1 t2 Hb) as Hstep.
  cbv zeta in Hstep. destruct Hstep as (_ & _ & _ & Hnb).
  revert Hnb. unfold update_body. simpl negb. cbv iota.
  rewrite Hfull. simpl negb. cbv iota.
  destruct (Q (consumed t1 vs)) as [| oldest rest] eqn:HQ.
  - exfalso. simpl in HQ.
    assert (List.length (skipn t1 (Q vs)) = 0) as H0 by (rewrite HQ; reflexivity).
    rewrite length_skipn in H0. lia.
  - simpl in HQ.
    assert (Hrest : rest = skipn (S t1) (Q vs)).
    { replace (S t1) with (1 + t1) by lia.
      rewrite <- skipn_skipn. rewrite HQ. reflexivity. }
    unfold put.
    destruct (full (consumed t2 (set_Q (consumed t1 vs) rest))); simpl.
    + discriminate.
    + intros _. unfold set_Q. simpl. rewrite Hrest. reflexivity.
Qed.

Lemma keep_last_all n (l : list frame) :
  List.length l <= n -> keep_last n l = l.
Proof.
  intros H. unfold keep_last.
  replace (List.length l - n) with 0 by lia. reflexivity.
Qed.

Lemma keep_last_length n (l : list frame) :
  List.length (keep_last n l) = Nat.min n (List.length l).
Proof. unfold keep_last. rewrite length_skipn. lia. Qed.

Lemma keep_last_app n (l r : list frame) :
  keep_last n (keep_last n l ++ r) = keep_last n (l ++ r).
Proof.
  unfold keep_last.
  destruct (Nat.le_gt_cases (List.length l) n) as [Hle | Hgt].
  - replace (List.length l - n) with 0 by lia. reflexivity.
  - rewrite !length_app, length_skipn.
    rewrite !skipn_app, length_skipn, skipn_skipn.
    f_equal.
    + f_equal. lia.
    + f_equal. lia.
Qed.

(** A push with no consumer in between keeps the last [maxsize] frames. *)
Lemma push_keep_last f vs :
  bounded vs ->
  Q (fst (push f vs)) = keep_last (Z.to_nat (maxsize vs)) (Q vs ++ [f]).
Proof.
  intros Hb. unfold push. destruct (full vs) eqn:Hfull.
  - destruct Hb as [Hpos Hle].
    destruct (full_true_at_capacity vs Hfull) as [_ Hge].
    assert (Hlen : List.length (Q vs) = Z.to_nat (maxsize vs))
      by (unfold qsize in *; lia).
    rewrite update_body_replaces; [| split; assumption | assumption | lia].
    simpl. unfold keep_last. rewrite length_app. simpl List.length.
    replace (List.length (Q vs) + 1 - Z.to_nat (maxsize vs)) with 1 by lia.
    destruct (Q vs) as [| x q]; [simpl in Hlen; lia | reflexivity].
  - destruct Hb as [Hpos Hle].
    pose proof (full_false_room vs Hpos Hfull) as Hlt.
    unfold update_body. simpl negb. cbv iota. rewrite Hfull. simpl negb.
    cbv iota.
    assert (Hroom : (qsize (consumed 0 vs) < maxsize (consumed 0 vs))%Z)
      by exact Hlt.
    rewrite (put_room f _ Hroom). simpl.
    rewrite keep_last_all; [reflexivity |].
    rewrite length_app. simpl. unfold qsize in Hlt. lia.
Qed.

Lemma pushes_keep_last fs : forall vs,
  bounded vs -> stopped vs = false ->
  Q (fst (update (pushes fs) vs))
  = keep_last (Z.to_nat (maxsize vs)) (Q vs ++ fs).
Proof.
  induction fs as [| f rest IH]; intros vs Hb Hrun; simpl.
  - rewrite Hrun. simpl. rewrite app_nil_r.
    symmetry. apply keep_last_all.
    destruct Hb as [Hpos Hle]. unfold qsize in Hle. lia.
  - rewrite Hrun.
    assert (Hsame : consumed 0 vs = vs) by (destruct vs; reflexivity).
    rewrite Hsame.
    pose proof (push_keep_last f Hb) as Hq.
    pose proof (update_body_bounded true f 0 0 Hb) as Hstep.
    cbv zeta in Hstep. unfold push in Hq.
    destruct (update_body true f 0 0 vs) as [vs1 o].
    simpl in Hq, Hstep. destruct Hstep as (Hb1 & Hm1 & Hs1 & _).
    specialize (IH vs1 Hb1). rewrite Hs1 in IH. specialize (IH Hrun).
    destruct (update (pushes rest) vs1) as [vs2 os]. simpl in *.
    rewrite IH, Hq, Hm1. rewrite keep_last_app.
    rewrite <- app_assoc. reflexivity.
Qed.


(** With [maxsize <= 0] the queue is never full: every push appends. *)
Lemma full_nonpositive vs : (maxsize vs <= 0)%Z -> full vs = false.
Proof.
  intros H. unfold full.
  replace (0 <? maxsize vs)%Z with false; [reflexivity |].
  symmetry. apply Z.ltb_ge. exact H.
Qed.

Lemma pushes_unbounded fs : forall vs,
  (maxsize vs <= 0)%Z -> stopped vs = false ->
  update (pushes fs) vs
  = (set_Q vs (Q vs ++ fs), map (fun _ => Appended) fs).
Proof.
  induction fs as [| f rest IH]; intros vs Hm Hrun; simpl.
  - rewrite Hrun, app_nil_r. destruct vs; reflexivity.
  - rewrite Hrun. unfold update_body, put. simpl negb. cbv iota.
    assert (Hsame : consumed 0 vs = vs) by (destruct vs; reflexivity).
    rewrite !Hsame. rewrite (full_nonpositive vs Hm). simpl negb. cbv iota.
    rewrite (IH (set_Q vs (Q vs ++ [f])) Hm Hrun). simpl.
    unfold set_Q. simpl. rewrite <- app_assoc. reflexivity.
Qed.

(** ** The claims on the frame buffer *)


(** C6, as amended.  [read] returns the oldest retained frame when there is
    one, the frame that arrives within the timeout when the buffer is
    empty, and [None] when none arrives; [stop] closes nothing: a [read]
    after [stop] gives what it would have given before, the frames still
    buffered and then the same [None] as a timeout. *)
Theorem read_contract (vs : VideoStream) (arrival : option frame) :
  (forall f rest,
      read arrival (set_Q vs (f :: rest)) = (Some f, set_Q vs rest)) /\
  read arrival (set_Q vs []) = (arrival, set_Q vs []) /\
  fst (read None (set_Q vs [])) = None /\
  fst (read arrival (stop vs)) = fst (read arrival vs) /\
  snd (read arrival (stop vs)) = stop (snd (read arrival vs)).
Proof.
  repeat split.
  - unfold read. simpl. destruct (Q vs); reflexivity.
  - unfold read. simpl. destruct (Q vs); reflexivity.
Qed.

(** C7, as amended.  A capacity of 0 is accepted: the constructor returns
    an empty, running buffer with [maxsize = 0], which [queue.Queue] treats
    as unbounded, so the buffer is never full and every push is kept. *)
Theorem init_zero_capacity (camera_ok : bool) :
  exists vs,
    init 0 camera_ok = Returned vs /\
    Q vs = [] /\ maxsize vs = 0%Z /\ stopped vs = false /\
    (forall q, full (set_Q vs q) = false) /\
    (forall fs,
        update (pushes fs) vs = (set_Q vs fs, map (fun _ => Appended) fs)).
Proof.
  eexists. split; [reflexivity |]. simpl. repeat split.
  intros fs. rewrite pushes_unbounded; simpl; reflexivity || lia.
Qed.

End Frames.

(** ** Concrete buffers *)

(** A two-frame buffer at capacity. *)
Definition full_pair : VideoStream nat :=
  {| Q := [1; 2]; maxsize := 2; stopped := false; cap_opened := true |}.



(** C6 as stated fails: after [stop] an empty buffer answers [None], the
    very value of a timeout on a running buffer, and a non-empty one still
    hands out its frames. *)
Lemma closed_read_counterexample :
  fst (read None (stop {| Q := @nil nat; maxsize := 5; stopped := false;
                          cap_opened := true |})) = None /\
  fst (read None {| Q := @nil nat; maxsize := 5; stopped := false;
                    cap_opened := true |}) = None /\
  fst (read None (stop {| Q := [4]; maxsize := 5; stopped := false;
                          cap_opened := true |})) = Some 4.
Proof. repeat split. Qed.

(** C7 as stated fails: [VideoStream(queue_size=0)] is constructed, and
    the buffer it yields takes three frames. *)
Lemma init_zero_counterexample :
  init nat 0 true
  = Returned {| Q := []; maxsize := 0; stopped := false;
                cap_opened := true |} /\
  update (pushes [1; 2; 3])
    {| Q := []; maxsize := 0; stopped := false; cap_opened := true |}
  = ({| Q := [1; 2; 3]; maxsize := 0; stopped := false; cap_opened := true |},
     [Appended; Appended; Appended]).
Proof. split; reflexivity. Qed.

(** ** Consumers, shutdown and provenance *)

Section Consumers.

Variable frame : Type.

(** [n] calls of [read] in a row while the producer delivers nothing: the
    values returned, oldest call first, and the buffer that is left. *)
Fixpoint reads (n : nat) (vs : VideoStream frame)
  : list (option frame) * VideoStream frame :=
  match n with
  | O => ([], vs)
  | S k =>
      let '(r, vs1) := read None vs in
      let '(rs, vs2) := reads k vs1 in
      (r :: rs, vs2)
  end.

Lemma reads_step k (vs : VideoStream frame) :
  reads (S k) vs
  = match Q vs with
    | [] => (None :: fst (reads k vs), snd (reads k vs))
    | f :: rest =>
        (Some f :: fst (reads k (set_Q vs rest)),
         snd (reads k (set_Q vs rest)))
    end.
Proof.
  cbn [reads]. unfold read.
  destruct (Q vs) as [| f rest].
  - destruct (reads k vs); reflexivity.
  - destruct (reads k (set_Q vs rest)); reflexivity.
Qed.

Lemma reads_spec n : forall vs : VideoStream frame,
  fst (reads n vs)
  = map Some (firstn n (Q vs)) ++ repeat None (n - List.length (Q vs)) /\
  Q (snd (reads n vs)) = skipn n (Q vs) /\
  maxsize (snd (reads n vs)) = maxsize vs.
Proof.
  induction n as [| k IH]; intros vs.
  - simpl. repeat split.
  - rewrite reads_step. destruct (Q vs) as [| f rest] eqn:HQ.
    + destruct (IH vs) as (Hr & Hq & Hm). cbn [fst snd].
      rewrite HQ in Hr, Hq. rewrite firstn_nil in Hr. simpl in Hr.
      rewrite Nat.sub_0_r in Hr. rewrite skipn_nil in Hq.
      repeat split; try assumption.
      rewrite Hr. reflexivity.
    + destruct (IH (set_Q vs rest)) as (Hr & Hq & Hm). cbn [fst snd].
      repeat split; try assumption.
      rewrite Hr. reflexivity.
Qed.

(** X1.  Frames come out in the order they went in: after a run of pushes
    on a running buffer of positive capacity, [n] reads return the oldest
    [n] of the last [maxsize] frames pushed, then [None] for each read
    beyond them, and leave the newer ones in the buffer. *)
Theorem pushes_then_reads (vs : VideoStream frame) (fs : list frame)
    (n : nat) :
  bounded vs -> stopped vs = false ->
  fst (reads n (fst (update (pushes fs) vs)))
  = map Some (firstn n (keep_last (Z.to_nat (maxsize vs)) (Q vs ++ fs)))
    ++ repeat None
         (n - Nat.min (Z.to_nat (maxsize vs)) (List.length (Q vs ++ fs))) /\
  Q (snd (reads n (fst (update (pushes fs) vs))))
  = skipn n (keep_last (Z.to_nat (maxsize vs)) (Q vs ++ fs)).
Proof.
  intros Hb Hrun.
  destruct (reads_spec n (fst (update (pushes fs) vs))) as (Hr & Hq & _).
  rewrite Hr, Hq, (pushes_keep_last fs Hb Hrun), keep_last_length.
  split; reflexivity.
Qed.

(** X2.  [stop] can be repeated (as [__del__] does), releases the camera,
    keeps the frames that are buffered, and ends the producer: whatever
    the camera would deliver afterwards, nothing is pushed. *)
Theorem stop_is_final (vs : VideoStream frame) (cs : list (capture frame)) :
  stop (stop vs) = stop vs /\
  is_opened (stop vs) = false /\
  Q (stop vs) = Q vs /\
  update cs (stop vs) = (stop vs, []) /\
  update cs (stop (fst (update cs vs))) = (stop (fst (update cs vs)), []).
Proof.
  repeat split; destruct cs; reflexivity.
Qed.

Lemma in_skipn (x : frame) n : forall l, In x (skipn n l) -> In x l.
Proof.
  induction n as [| k IH]; intros l H; [exact H |].
  destruct l as [| y l']; [exact H |]. right. now apply IH.
Qed.

Lemma update_body_provenance ret f t1 t2 (vs : VideoStream frame) x :
  In x (Q (fst (update_body ret f t1 t2 vs))) ->
  In x (Q vs) \/ (ret = true /\ x = f).
Proof.
  unfold update_body, put, consumed.
  destruct ret; cbn [negb]; [| intros H; now left].
  destruct (full vs); cbn [negb].
  - cbn [Q set_Q].
    destruct (skipn t1 (Q vs)) as [| oldest rest] eqn:Hs.
    + cbn [fst Q set_Q]. intros [].
    + match goal with
      | |- context [if ?b then _ else _] => destruct b
      end; cbn [fst Q set_Q]; intros H.
      * left. apply (in_skipn x t1). rewrite Hs. right.
        now apply (in_skipn x t2).
      * apply in_app_or in H. destruct H as [H | [H | []]].
        -- left. apply (in_skipn x t1). rewrite Hs. right.
           now apply (in_skipn x t2).
        -- right. auto.
  - match goal with
    | |- context [if ?b then _ else _] => destruct b
    end; cbn [fst Q set_Q]; intros H.
    + left. now apply (in_skipn x t1).
    + apply in_app_or in H. destruct H as [H | [H | []]].
      * left. now apply (in_skipn x t1).
      * right. auto.
Qed.

(** X3.  The producer invents nothing: whatever the captures and the
    consumers, every frame found in the buffer afterwards was in the
    buffer before or is the frame of a capture that succeeded.  A failed
    camera read never puts anything in the buffer. *)
Theorem update_provenance (cs : list (capture frame)) :
  forall (vs : VideoStream frame) (x : frame),
    In x (Q (fst (update cs vs))) ->
    In x (Q vs) \/
    exists c, In c cs /\ cap_ret c = true /\ cap_frame c = x.
Proof.
  induction cs as [| c rest IH]; intros vs x H.
  - simpl in H. destruct (stopped vs); now left.
  - cbn [update] in H. destruct (stopped vs); [now left |].
    pose proof (update_body_provenance (cap_ret c) (cap_frame c)
                  (cap_taken1 c) (cap_taken2 c)
                  (consumed (cap_taken0 c) vs)) as Hstep.
    destruct (update_body (cap_ret c) (cap_frame c) (cap_taken1 c)
                (cap_taken2 c) (consumed (cap_taken0 c) vs)) as [vs1 o].
    specialize (IH vs1 x).
    destruct (update rest vs1) as [vs2 os]. cbn [fst] in *.
    destruct (IH H) as [Hin | (c' & Hc' & Hret & Hf)].
    + destruct (Hstep x Hin) as [Hold | [Hret Hx]].
      * left. now apply (in_skipn x (cap_taken0 c)).
      * right. exists c. repeat split; auto. now left.
    + right. exists c'. repeat split; auto. now right.
Qed.

End Consumers.

Lemma pushes_then_reads_witness :
  fst (reads 3 (fst (update (pushes [3; 4; 5]) full_pair)))
  = [Some 4; Some 5; None].
Proof.
  assert (Hb : bounded full_pair).
  { split; [reflexivity | discriminate]. }
  destruct (@pushes_then_reads nat full_pair [3; 4; 5] 3 Hb eq_refl)
    as [Hr _].
  rewrite Hr. reflexivity.
Defined.

Lemma update_provenance_witness :
  In 2 (Q full_pair) \/
  exists c, In c (pushes [3]) /\ cap_ret c = true /\ cap_frame c = 2.
Proof.
  apply (@update_provenance nat (pushes [3]) full_pair 2).
  simpl. left. reflexivity.
Defined.

End Stream.

(* ===================================================================== *)
(** * audio/tts.py *)
(* ===================================================================== *)

Module TTS.
Import Py.

(** The fields of [TTSEngine].  [engine] tells whether [self.engine] holds
    a pyttsx3 engine ([false] for [None]); [speech_queue] is the content
    of the unbounded [Queue], oldest utterance first. *)
Record TTSEngine : Type := mkTTSEngine {
  engine : bool;
  speech_queue : list str;
  is_speaking : bool;
  stop_speaking : bool
}.

(** [TTSEngine.__init__] with [initialize_engine]: when [pyttsx3.init] or
    the voice set-up raises, the engine stays [None]. *)
Definition init (backend_init : py_result unit) : TTSEngine * list str :=
  match backend_init with
  | Returned _ =>
      ({| engine := true; speech_queue := []; is_speaking := false;
          stop_speaking := false |},
       [[0x2705%N] ++ lit " TTS engine initialized successfully"])
  | Raised msg =>
      ({| engine := false; speech_queue := []; is_speaking := false;
          stop_speaking := false |},
       [[0x274C%N] ++ lit " TTS initialization failed: " ++ msg;
        [0x1F4A1%N] ++ lit " Try installing: pip install pyttsx3"])
  end.

Definition in_range (lo hi c : N) : bool := ((lo <=? c) && (c <=? hi))%N.

(** The character class of [emoji_pattern]. *)
Definition emoji_pattern (c : N) : bool :=
  in_range 0x1F600 0x1F64F c     (* emoticons *)
  || in_range 0x1F300 0x1F5FF c  (* symbols & pictographs *)
  || in_range 0x1F680 0x1F6FF c  (* transport & map *)
  || in_range 0x1F1E0 0x1F1FF c  (* flags *)
  || in_range 0x2702 0x27B0 c
  || in_range 0x24C2 0x1F251 c.

(** [emoji_pattern.sub('', text)]: every run of the class is deleted. *)
Definition emoji_sub (text : str) : str :=
  filter (fun c => negb (emoji_pattern c)) text.

(** The dictionary [replacements], in insertion order. *)
Definition replacements : list (str * str) :=
  [ ([0xB0%N; 67%N], lit " degrees Celsius");
    ([0xB0%N; 70%N], lit " degrees Fahrenheit");
    (lit "%", lit " percent");
    (lit "&", lit " and ");
    (lit "@", lit " at ");
    (lit "#", lit " hash ");
    (lit "$", lit " dollars ");
    ([0x20AC%N], lit " euros ");
    ([0xA3%N], lit " pounds ");
    ([0x20B9%N], lit " rupees ");
    (lit "...", lit " ");
    (lit "..", lit " ");
    (lit "  ", lit " ") ].

Definition replace_all (rs : list (str * str)) (text : str) : str :=
  fold_left (fun t r => replace (fst r) (snd r) t) rs text.

(** [TTSEngine._clean_text_for_speech] *)
Definition _clean_text_for_speech (text : str) : str :=
  let text := emoji_sub text in
  let text := replace_all replacements text in
  let text := join (lit " ") (split text) in
  strip text.

Definition set_queue (t : TTSEngine) (q : list str) : TTSEngine :=
  {| engine := engine t; speech_queue := q; is_speaking := is_speaking t;
     stop_speaking := stop_speaking t |}.

Definition is_empty (s : str) : bool :=
  match s with [] => true | _ => false end.

(** What the worker thread does between the caller's [engine.stop()] and
    the end of the loop that clears the queue: its [runAndWait] returns,
    it takes [taken] items off the queue and hands the non-empty ones to
    the engine; [restarted] tells whether its [is_speaking = True] for one
    of them lands after the caller's [is_speaking = False]. *)
Record window : Type := mkWindow {
  taken : nat;
  restarted : bool
}.

(** The worker stands still during the call. *)
Definition quiet : window := {| taken := 0; restarted := false |}.

(** The utterances the worker takes up during the window. *)
Definition taken_up (w : window) (t : TTSEngine) : list str :=
  filter (fun text => negb (is_empty text))
    (firstn (taken w) (speech_queue t)).

(** [TTSEngine.stop_current_speech].  [backend_stop] is the outcome of
    [self.engine.stop()]: it raises, or it returns and the worker goes
    through the window described. *)
Definition stop_current_speech (backend_stop : py_result window)
    (t : TTSEngine) : TTSEngine * list str :=
  if engine t && is_speaking t then
    match backend_stop with
    | Returned w =>
        ({| engine := engine t; speech_queue := [];
            is_speaking :=
              restarted w
              && negb (match taken_up w t with [] => true | _ => false end);
            stop_speaking := stop_speaking t |},
         [[0x1F507%N] ++ lit " Speech interrupted"])
    | Raised msg =>
        (t, [[0x274C%N] ++ lit " Error stopping speech: " ++ msg])
    end
  else (t, []).

(** [TTSEngine.speak] *)
Definition speak (text : str) (interrupt : bool)
    (backend_stop : py_result window) (t : TTSEngine) : TTSEngine * list str :=
  if negb (engine t) then (t, [[0x1F916%N] ++ lit ": " ++ text])
  else if is_empty text || is_empty (strip text) then (t, [])
  else
    let clean_text := _clean_text_for_speech text in
    let '(t1, out) :=
      if interrupt then stop_current_speech backend_stop t else (t, []) in
    (set_queue t1 (speech_queue t1 ++ [clean_text]), out).

(** [TTSEngine.is_busy] *)
Definition is_busy (t : TTSEngine) : bool :=
  is_speaking t || negb (match speech_queue t with [] => true | _ => false end).

(** One pass of the loop of [_speech_worker]: the engine state, what was
    printed, and the text handed to [engine.say], if any.  [backend_say]
    is the outcome of [say] and [runAndWait]. *)
Definition speech_worker_body (backend_say : py_result unit)
    (t : TTSEngine) : TTSEngine * list str * option str :=
  if stop_speaking t then (t, [], None)
  else
    match speech_queue t with
    | [] => (t, [], None)
    | text :: rest =>
        if negb (is_empty text) && engine t then
          match backend_say with
          | Returned _ =>
              ({| engine := engine t; speech_queue := rest;
                  is_speaking := false; stop_speaking := stop_speaking t |},
               [], Some text)
          | Raised msg =>
              ({| engine := engine t; speech_queue := rest;
                  is_speaking := false; stop_speaking := stop_speaking t |},
               [[0x274C%N] ++ lit " TTS error: " ++ msg], Some text)
          end
        else (set_queue t rest, [], None)
    end.

(** ** Characters of a text *)

Section Characters.

(** A class of characters closed under the operations below. *)
Variable P : N -> bool.

Lemma lstrip_chars s : forallb P s = true -> forallb P (lstrip s) = true.
Proof.
  induction s as [| c r IH]; simpl; intros H; [reflexivity |].
  destruct (isspace c); [| exact H].
  apply IH. apply andb_true_iff in H. apply H.
Qed.

Lemma rev_chars s : forallb P (rev s) = forallb P s.
Proof.
  induction s as [| c r IH]; simpl; [reflexivity |].
  rewrite forallb_app, IH. simpl. rewrite andb_true_r. apply andb_comm.
Qed.

Lemma strip_chars s : forallb P s = true -> forallb P (strip s) = true.
Proof.
  intros H. unfold strip, rstrip. rewrite rev_chars.
  apply lstrip_chars. rewrite rev_chars. now apply lstrip_chars.
Qed.

Lemma replace_from_chars old new : forall s skip,
  forallb P new = true -> forallb P s = true ->
  forallb P (replace_from old new skip s) = true.
Proof.
  induction s as [| c r IH]; intros skip Hnew Hs; simpl; [reflexivity |].
  simpl in Hs. apply andb_true_iff in Hs. destruct Hs as [Hc Hr].
  destruct skip as [| k]; [| now apply IH].
  destruct (starts_with old (c :: r)).
  - rewrite forallb_app, Hnew. simpl. now apply IH.
  - simpl. rewrite Hc. simpl. now apply IH.
Qed.

Lemma replace_chars old new s :
  forallb P new = true -> forallb P s = true ->
  forallb P (replace old new s) = true.
Proof.
  intros Hnew Hs. destruct old as [| o old'].
  - simpl. rewrite forallb_app, Hnew. simpl.
    induction s as [| c r IH]; simpl; [reflexivity |].
    simpl in Hs. apply andb_true_iff in Hs. destruct Hs as [Hc Hr].
    rewrite Hc, forallb_app, Hnew. simpl. now apply IH.
  - now apply replace_from_chars.
Qed.

Lemma replace_all_chars rs : forall s,
  forallb (fun r => forallb P (snd r)) rs = true -> forallb P s = true ->
  forallb P (replace_all rs s) = true.
Proof.
  induction rs as [| r rs IH]; intros s Hrs Hs; simpl; [exact Hs |].
  simpl in Hrs. apply andb_true_iff in Hrs. destruct Hrs as [Hr Hrs].
  apply IH; [exact Hrs |]. now apply replace_chars.
Qed.

Lemma split_from_chars s : forall cur,
  forallb P cur = true -> forallb P s = true ->
  forallb (forallb P) (split_from cur s) = true.
Proof.
  induction s as [| c r IH]; intros cur Hcur Hs; simpl.
  - destruct cur; [reflexivity |]. simpl. simpl in Hcur. now rewrite Hcur.
  - simpl in Hs. apply andb_true_iff in Hs. destruct Hs as [Hc Hr].
    destruct (isspace c).
    + destruct cur as [| x cur'].
      * now apply IH.
      * simpl. simpl in Hcur. rewrite Hcur. simpl. now apply IH.
    + apply IH; [| exact Hr].
      rewrite forallb_app, Hcur. simpl. now rewrite Hc.
Qed.

Lemma join_chars sep ws :
  forallb P sep = true -> forallb (forallb P) ws = true ->
  forallb P (join sep ws) = true.
Proof.
  intros Hsep. induction ws as [| w ws IH]; intros Hws; [reflexivity |].
  simpl in Hws. apply andb_true_iff in Hws. destruct Hws as [Hw Hrest].
  destruct ws as [| w' ws'].
  - exact Hw.
  - change (join sep (w :: w' :: ws')) with (w ++ sep ++ join sep (w' :: ws')).
    rewrite !forallb_app, Hw, Hsep. simpl. now apply IH.
Qed.

(** The sanitized text keeps to [P] when the text left after the emoji
    filter does, the inserted words do, and the space does. *)
Lemma clean_chars_from rs s :
  P 32%N = true ->
  forallb (fun r => forallb P (snd r)) rs = true ->
  forallb P s = true ->
  forallb P (strip (join (lit " ") (split (replace_all rs s)))) = true.
Proof.
  intros Hsp Hrs Hs. apply strip_chars. apply join_chars.
  - simpl. now rewrite Hsp.
  - apply split_from_chars; [reflexivity |]. now apply replace_all_chars.
Qed.

End Characters.

(** ** Symbols that are spelled out *)

Definition other_than (c x : N) : bool := negb (x =? c)%N.

(** Replacing a one-character symbol leaves no occurrence of it. *)
Lemma replace_symbol_gone c new s :
  forallb (other_than c) new = true ->
  forallb (other_than c) (replace [c] new s) = true.
Proof.
  intros Hnew. unfold replace.
  induction s as [| x r IH]; [reflexivity |].
  cbn [replace_from starts_with List.length Nat.sub].
  destruct (c =? x)%N eqn:Hcx; cbn [andb].
  - rewrite forallb_app, Hnew. exact IH.
  - cbn [forallb]. unfold other_than at 1.
    rewrite N.eqb_sym, Hcx. exact IH.
Qed.

Lemma replace_all_app rs1 rs2 s :
  replace_all (rs1 ++ rs2) s = replace_all rs2 (replace_all rs1 s).
Proof. unfold replace_all. apply fold_left_app. Qed.

Lemma clean_symbol_gone c new pre post text :
  replacements = pre ++ ([c], new) :: post ->
  forallb (other_than c) new = true ->
  forallb (fun r => forallb (other_than c) (snd r)) post = true ->
  other_than c 32%N = true ->
  forallb (other_than c) (_clean_text_for_speech text) = true.
Proof.
  intros Hsplit Hnew Hpost Hsp. unfold _clean_text_for_speech.
  rewrite Hsplit, replace_all_app. cbn [replace_all fold_left fst snd].
  apply strip_chars. apply join_chars; [simpl; now rewrite Hsp |].
  apply split_from_chars; [reflexivity |].
  apply (replace_all_chars (other_than c) post); [exact Hpost |].
  now apply replace_symbol_gone.
Qed.

(** The one-character symbols of the dictionary: % & @ # $ and the euro,
    pound and rupee signs. *)
Definition spelled_symbols : list N :=
  [37; 38; 64; 35; 36; 0x20AC; 0xA3; 0x20B9]%N.

Lemma clean_spelled_symbols text c :
  In c spelled_symbols ->
  forallb (other_than c) (_clean_text_for_speech text) = true.
Proof.
  intros Hin. unfold spelled_symbols in Hin. simpl in Hin.
  destruct Hin as [H | [H | [H | [H | [H | [H | [H | [H | []]]]]]]]];
    subst c.
  - eapply (@clean_symbol_gone _ _ (firstn 2 replacements)
              (skipn 3 replacements)); reflexivity.
  - eapply (@clean_symbol_gone _ _ (firstn 3 replacements)
              (skipn 4 replacements)); reflexivity.
  - eapply (@clean_symbol_gone _ _ (firstn 4 replacements)
              (skipn 5 replacements)); reflexivity.
  - eapply (@clean_symbol_gone _ _ (firstn 5 replacements)
              (skipn 6 replacements)); reflexivity.
  - eapply (@clean_symbol_gone _ _ (firstn 6 replacements)
              (skipn 7 replacements)); reflexivity.
  - eapply (@clean_symbol_gone _ _ (firstn 7 replacements)
              (skipn 8 replacements)); reflexivity.
  - eapply (@clean_symbol_gone _ _ (firstn 8 replacements)
              (skipn 9 replacements)); reflexivity.
  - eapply (@clean_symbol_gone _ _ (firstn 9 replacements)
              (skipn 10 replacements)); reflexivity.
Qed.

(** ** The characters of [emoji_pattern] *)

Definition not_in_pattern (c : N) : bool := negb (emoji_pattern c).

Lemma emoji_sub_clear text : forallb not_in_pattern (emoji_sub text) = true.
Proof.
  unfold emoji_sub. induction text as [| c r IH]; [reflexivity |].
  simpl. destruct (emoji_pattern c) eqn:Hc; simpl; [exact IH |].
  unfold not_in_pattern at 1. rewrite Hc. exact IH.
Qed.

Lemma clean_pattern_clear text :
  forallb not_in_pattern (_clean_text_for_speech text) = true.
Proof.
  unfold _clean_text_for_speech.
  apply clean_chars_from; [reflexivity | reflexivity |].
  apply emoji_sub_clear.
Qed.

(** ** White space *)

(** A word: not empty and free of white space. *)
Definition word (w : str) : bool :=
  negb (is_empty w) && forallb (fun c => negb (isspace c)) w.

Lemma split_from_words s : forall cur,
  forallb (fun c => negb (isspace c)) cur = true ->
  forallb word (split_from cur s) = true.
Proof.
  induction s as [| c r IH]; intros cur Hcur; simpl.
  - destruct cur as [| x cur']; [reflexivity |].
    simpl. unfold word. simpl is_empty. simpl negb.
    rewrite Hcur. reflexivity.
  - destruct (isspace c) eqn:Hc.
    + destruct cur as [| x cur'].
      * now apply IH.
      * cbn [forallb]. unfold word at 1. simpl is_empty. simpl negb.
        rewrite Hcur. simpl. now apply IH.
    + apply IH. rewrite forallb_app, Hcur. simpl. now rewrite Hc.
Qed.

Lemma split_words s : forallb word (split s) = true.
Proof. now apply split_from_words. Qed.

Lemma lstrip_word_first c r : isspace c = false -> lstrip (c :: r) = c :: r.
Proof. intros H. simpl. now rewrite H. Qed.

Lemma word_first w :
  word w = true -> exists c r, w = c :: r /\ isspace c = false.
Proof.
  destruct w as [| c r]; [discriminate |].
  unfold word. simpl. intros H. apply andb_true_iff in H.
  destruct H as [H _]. apply negb_true_iff in H. eauto.
Qed.

Lemma word_last w :
  word w = true -> exists r c, w = r ++ [c] /\ isspace c = false.
Proof.
  intros H. destruct w as [| x w'] eqn:Hw; [discriminate |].
  destruct (@exists_last _ (x :: w')) as (r & c & Heq); [discriminate |].
  exists r, c. split; [exact Heq |].
  unfold word in H. simpl is_empty in H. simpl negb in H.
  rewrite Heq, forallb_app in H. simpl in H.
  apply andb_true_iff in H. destruct H as [_ H].
  apply andb_true_iff in H. destruct H as [H _].
  now apply negb_true_iff in H.
Qed.

Lemma join_first sep w ws :
  word w = true ->
  exists c r, join sep (w :: ws) = c :: r /\ isspace c = false.
Proof.
  intros Hw. destruct (word_first w Hw) as (c & r & Heq & Hc). subst w.
  destruct ws as [| w' ws'].
  - exists c, r. split; [reflexivity | exact Hc].
  - exists c, (r ++ sep ++ join sep (w' :: ws')).
    split; [reflexivity | exact Hc].
Qed.

Lemma join_last sep ws : forall w,
  forallb word (w :: ws) = true ->
  exists r c, join sep (w :: ws) = r ++ [c] /\ isspace c = false.
Proof.
  induction ws as [| w' ws' IH]; intros w Hws.
  - simpl in Hws. rewrite andb_true_r in Hws. now apply word_last.
  - cbn [forallb] in Hws. apply andb_true_iff in Hws.
    destruct Hws as [_ Hrest].
    destruct (IH w' Hrest) as (r & c & Heq & Hc).
    exists (w ++ sep ++ r), c. split; [| exact Hc].
    change (join sep (w :: w' :: ws')) with (w ++ sep ++ join sep (w' :: ws')).
    rewrite Heq, <- !app_assoc. reflexivity.
Qed.

(** Words joined by single spaces have nothing left to strip. *)
Lemma strip_join_words sep ws :
  forallb word ws = true -> strip (join sep ws) = join sep ws.
Proof.
  intros Hws. destruct ws as [| w ws']; [reflexivity |].
  pose proof Hws as Hw. cbn [forallb] in Hw.
  apply andb_true_iff in Hw. destruct Hw as [Hw _].
  destruct (join_first sep w ws' Hw) as (c & r & Hhead & Hc).
  destruct (join_last sep ws' w Hws) as (r' & c' & Hlast & Hc').
  unfold strip, rstrip.
  rewrite Hhead, (lstrip_word_first c r Hc), <- Hhead.
  rewrite Hlast, rev_app_distr.
  change (rev [c'] ++ rev r') with (c' :: rev r').
  rewrite (lstrip_word_first c' (rev r') Hc').
  change (c' :: rev r') with (rev [c'] ++ rev r').
  rewrite <- rev_app_distr. apply rev_involutive.
Qed.

Lemma clean_is_joined_words text :
  exists ws,
    _clean_text_for_speech text = join (lit " ") ws /\
    forallb word ws = true.
Proof.
  unfold _clean_text_for_speech.
  exists (split (replace_all replacements (emoji_sub text))).
  split; [| apply split_words].
  apply strip_join_words. apply split_words.
Qed.

(** ** The claims on the speech queue *)

(** What [speak] leaves in the queue. *)
Lemma speak_queue text interrupt b t :
  speech_queue (fst (speak text interrupt b t))
  = if engine t && negb (is_empty text || is_empty (strip text))
    then speech_queue
           (if interrupt then fst (stop_current_speech b t) else t)
         ++ [_clean_text_for_speech text]
    else speech_queue t.
Proof.
  unfold speak. destruct (engine t); simpl; [| reflexivity].
  destruct (is_empty text || is_empty (strip text)); simpl; [reflexivity |].
  destruct interrupt; [| reflexivity].
  destruct (stop_current_speech b t); reflexivity.
Qed.

(** C5, as amended.  [stop_current_speech] acts only while a playback is
    in progress on an available engine.  Then, when [engine.stop()]
    returns, the queue is empty after the call whatever the worker does
    meanwhile, and [is_busy] answers [False] provided the worker has not
    taken up another utterance and marked itself speaking while the call
    ran; in particular with the worker standing still the playback is
    halted, all queued utterances are discarded and the engine is idle.
    When [engine.stop()] raises, or when no playback is in progress, the
    call changes nothing, whatever is queued. *)
Theorem interrupt_contract (q : list str) (halt : bool) :
  (forall w,
      speech_queue
        (fst (stop_current_speech (Returned w)
                {| engine := true; speech_queue := q; is_speaking := true;
                   stop_speaking := halt |})) = []) /\
  (forall w,
      restarted w = false \/
      taken_up w {| engine := true; speech_queue := q; is_speaking := true;
                    stop_speaking := halt |} = [] ->
      is_busy
        (fst (stop_current_speech (Returned w)
                {| engine := true; speech_queue := q; is_speaking := true;
                   stop_speaking := halt |})) = false) /\
  stop_current_speech (Returned quiet)
    {| engine := true; speech_queue := q; is_speaking := true;
       stop_speaking := halt |}
  = ({| engine := true; speech_queue := []; is_speaking := false;
        stop_speaking := halt |},
     [[0x1F507%N] ++ lit " Speech interrupted"]) /\
  (forall msg,
      stop_current_speech (Raised msg)
        {| engine := true; speech_queue := q; is_speaking := true;
           stop_speaking := halt |}
      = ({| engine := true; speech_queue := q; is_speaking := true;
            stop_speaking := halt |},
         [[0x274C%N] ++ lit " Error stopping speech: " ++ msg])) /\
  (forall b e,
      stop_current_speech b
        {| engine := e; speech_queue := q; is_speaking := false;
           stop_speaking := halt |}
      = ({| engine := e; speech_queue := q; is_speaking := false;
            stop_speaking := halt |}, [])) /\
  (forall e,
      is_busy {| engine := e; speech_queue := q; is_speaking := false;
                 stop_speaking := halt |}
      = negb (match q with [] => true | _ => false end)).
Proof.
  split; [reflexivity |].
  split.
  { intros w H. unfold stop_current_speech, is_busy.
    cbn [engine is_speaking andb fst speech_queue].
    destruct H as [H | H]; rewrite H; [reflexivity |].
    now rewrite andb_false_r. }
  split; [reflexivity |].
  split; [reflexivity |].
  split; [| reflexivity].
  intros b e. unfold stop_current_speech. simpl.
  now rewrite andb_false_r.
Qed.

(** C5 as stated fails: with no playback in progress and one utterance
    queued, [stop_current_speech] leaves the utterance where it is and
    [is_busy] still answers [True].  And during a playback, a worker that
    takes up the next utterance while the call runs leaves the engine
    busy after it. *)
Lemma interrupt_counterexample :
  stop_current_speech (Returned quiet)
    {| engine := true; speech_queue := [lit "hello"]; is_speaking := false;
       stop_speaking := false |}
  = ({| engine := true; speech_queue := [lit "hello"]; is_speaking := false;
        stop_speaking := false |}, []) /\
  is_busy {| engine := true; speech_queue := [lit "hello"];
             is_speaking := false; stop_speaking := false |} = true /\
  is_busy
    (fst (stop_current_speech
            (Returned {| taken := 1; restarted := true |})
            {| engine := true; speech_queue := [lit "next"];
               is_speaking := true; stop_speaking := false |})) = true.
Proof. repeat split. Qed.

(** What [speak] queues.  [speak] puts on the queue the text sanitized by
    [_clean_text_for_speech], and the worker hands a queued item to the
    engine as it is.  The sanitized text has no character of the class of
    [emoji_pattern], none of the symbols % & @ # $ and the euro, pound and
    rupee signs, and is a sequence of words separated by single spaces;
    ["50%"] becomes ["50 percent"] and 25 followed by the degree sign and C
    becomes ["25 degrees Celsius"]. *)
Lemma speak_enqueues_sanitized (text : str) :
  (forall interrupt b t,
      speech_queue (fst (speak text interrupt b t))
      = if engine t && negb (is_empty text || is_empty (strip text))
        then speech_queue
               (if interrupt then fst (stop_current_speech b t) else t)
             ++ [_clean_text_for_speech text]
        else speech_queue t) /\
  (forall say item rest busy,
      snd (speech_worker_body say
             {| engine := true; speech_queue := item :: rest;
                is_speaking := busy; stop_speaking := false |})
      = if is_empty item then None else Some item) /\
  forallb not_in_pattern (_clean_text_for_speech text) = true /\
  (forall c, In c spelled_symbols ->
             forallb (other_than c) (_clean_text_for_speech text) = true) /\
  (exists ws,
      _clean_text_for_speech text = join (lit " ") ws /\
      forallb word ws = true) /\
  _clean_text_for_speech (lit "50%") = lit "50 percent" /\
  _clean_text_for_speech (lit "25" ++ [0xB0%N; 67%N])
  = lit "25 degrees Celsius".
Proof.
  split; [intros; apply speak_queue |].
  split.
  { intros say item rest busy. unfold speech_worker_body. simpl.
    destruct item; simpl; [reflexivity |]. destruct say; reflexivity. }
  split; [apply clean_pattern_clear |].
  split; [intros c Hc; now apply clean_spelled_symbols |].
  split; [apply clean_is_joined_words |].
  split; reflexivity.
Qed.

(** C9, at the input on which the code fails it.  [emoji_pattern] stops
    at U+1F251 and lists no block above U+1F6FF, so the robot face U+1F916
    is no character of it: [speak] of the robot face followed by [" hi"]
    puts the text on the queue with the emoji still in it, and the worker
    hands exactly that text to the engine. *)
Theorem robot_face_is_queued :
  emoji_pattern 0x1F916 = false /\
  _clean_text_for_speech ([0x1F916%N] ++ lit " hi")
  = [0x1F916%N] ++ lit " hi" /\
  speech_queue
    (fst (speak ([0x1F916%N] ++ lit " hi") false (Returned quiet)
            {| engine := true; speech_queue := []; is_speaking := false;
               stop_speaking := false |}))
  = [[0x1F916%N] ++ lit " hi"] /\
  snd (speech_worker_body (Returned tt)
         {| engine := true; speech_queue := [[0x1F916%N] ++ lit " hi"];
            is_speaking := false; stop_speaking := false |})
  = Some ([0x1F916%N] ++ lit " hi").
Proof. repeat split. Qed.

(** ** Blank texts and a missing engine *)

Lemma lstrip_blank s : forallb isspace s = true -> lstrip s = [].
Proof.
  induction s as [| c r IH]; [reflexivity |].
  simpl. intros H. apply andb_true_iff in H. destruct H as [Hc Hr].
  rewrite Hc. now apply IH.
Qed.

Lemma strip_blank s : forallb isspace s = true -> strip s = [].
Proof. intros H. unfold strip. now rewrite (lstrip_blank s H). Qed.

(** X6.  A text that is empty or made of white space only is not spoken:
    with an engine available [speak] returns at once, leaving the queue
    as it is and printing nothing, and even [interrupt=True] does not stop
    the speech in progress. *)
Theorem speak_blank_is_ignored (text : str) (interrupt : bool)
    (backend_stop : py_result window) (t : TTSEngine) :
  engine t = true -> forallb isspace text = true ->
  speak text interrupt backend_stop t = (t, []).
Proof.
  intros He Hblank. unfold speak. rewrite He. cbn [negb].
  rewrite (strip_blank text Hblank). cbn [is_empty].
  now rewrite orb_true_r.
Qed.

(** A run of calls [speak(text, interrupt)], each with the outcome that
    [engine.stop()] would have, and all that is printed. *)
Fixpoint speak_all (calls : list (str * bool * py_result window))
    (t : TTSEngine) : TTSEngine * list str :=
  match calls with
  | [] => (t, [])
  | (text, interrupt, backend_stop) :: rest =>
      let '(t1, out) := speak text interrupt backend_stop t in
      let '(t2, outs) := speak_all rest t1 in
      (t2, out ++ outs)
  end.

(** X7.  When the engine did not initialize, no call of [speak] ever
    changes the engine state: nothing is queued, [is_busy] keeps its
    answer, and each text, blank or not, is printed after the robot
    face. *)
Theorem speak_without_engine
    (calls : list (str * bool * py_result window)) (t : TTSEngine) :
  engine t = false ->
  speak_all calls t
  = (t, map (fun c => [0x1F916%N] ++ lit ": " ++ fst (fst c)) calls).
Proof.
  intros He. induction calls as [| [[text interrupt] b] rest IH].
  - reflexivity.
  - cbn [speak_all]. unfold speak at 1. rewrite He. cbn [negb].
    rewrite IH. reflexivity.
Qed.

(** ** The speech worker *)

(** [TTSEngine._speech_worker]: one outcome of the backend for each pass
    of the loop; the final state, what was printed, and the texts handed
    to [engine.say], in order. *)
Fixpoint _speech_worker (says : list (py_result unit)) (t : TTSEngine)
  : TTSEngine * list str * list str :=
  match says with
  | [] => (t, [], [])
  | say :: rest =>
      let '(t1, out, spoken) := speech_worker_body say t in
      let '(t2, outs, spokens) := _speech_worker rest t1 in
      (t2, out ++ outs,
       match spoken with Some text => text :: spokens | None => spokens end)
  end.

Definition said (r : TTSEngine * list str * list str) : list str := snd r.
Definition after_worker (r : TTSEngine * list str * list str) : TTSEngine :=
  fst (fst r).

Lemma worker_step say rest t :
  _speech_worker (say :: rest) t
  = (after_worker (_speech_worker rest
                     (fst (fst (speech_worker_body say t)))),
     snd (fst (speech_worker_body say t))
     ++ snd (fst (_speech_worker rest (fst (fst (speech_worker_body say t))))),
     match snd (speech_worker_body say t) with
     | Some text =>
         text :: said (_speech_worker rest
                         (fst (fst (speech_worker_body say t))))
     | None =>
         said (_speech_worker rest (fst (fst (speech_worker_body say t))))
     end).
Proof.
  cbn [_speech_worker].
  destruct (speech_worker_body say t) as [[t1 out] spoken].
  cbn [fst snd].
  destruct (_speech_worker rest t1) as [[t2 outs] spokens].
  reflexivity.
Qed.

(** An idle worker on an empty queue stays idle. *)
Lemma worker_idle says : forall t,
  speech_queue t = [] -> _speech_worker says t = (t, [], []).
Proof.
  induction says as [| say rest IH]; intros t Hq; [reflexivity |].
  rewrite worker_step.
  assert (Hbody : speech_worker_body say t = (t, [], None)).
  { unfold speech_worker_body. rewrite Hq. destruct (stop_speaking t);
      reflexivity. }
  rewrite Hbody. cbn [fst snd]. rewrite (IH t Hq). reflexivity.
Qed.

Definition spoken_items (q : list str) : list str :=
  filter (fun text => negb (is_empty text)) q.

Lemma worker_drains says : forall t,
  engine t = true -> stop_speaking t = false -> is_speaking t = false ->
  List.length (speech_queue t) <= List.length says ->
  said (_speech_worker says t) = spoken_items (speech_queue t) /\
  speech_queue (after_worker (_speech_worker says t)) = [] /\
  is_speaking (after_worker (_speech_worker says t)) = false.
Proof.
  induction says as [| say rest IH]; intros t He Hs Hidle Hlen.
  - destruct (speech_queue t) eqn:Hq; [| simpl in Hlen; lia].
    cbn. rewrite Hq. auto.
  - destruct (speech_queue t) as [| item q] eqn:Hq.
    + rewrite (worker_idle (say :: rest) t Hq). cbn. rewrite Hq. auto.
    + rewrite worker_step.
      assert (Hbody :
        exists t1 out,
          speech_worker_body say t
          = (t1, out, if is_empty item then None else Some item) /\
          engine t1 = true /\ stop_speaking t1 = false /\
          is_speaking t1 = false /\ speech_queue t1 = q).
      { unfold speech_worker_body. rewrite Hs, Hq, He.
        destruct item as [| c item']; cbn [is_empty negb andb].
        - eexists. eexists. split; [reflexivity |].
          cbn. auto.
        - destruct say; eexists; eexists; (split; [reflexivity |]);
            cbn; auto. }
      destruct Hbody as (t1 & out & Hbody & He1 & Hs1 & Hi1 & Hq1).
      rewrite Hbody. cbn [fst snd].
      assert (Hlen1 : List.length (speech_queue t1) <= List.length rest).
      { rewrite Hq1. simpl in Hlen. lia. }
      destruct (IH t1 He1 Hs1 Hi1 Hlen1) as (Hsaid & Hempty & Hdone).
      unfold said, after_worker in *. cbn [fst snd].
      rewrite Hq1 in Hsaid.
      repeat split; try assumption.
      unfold spoken_items. cbn [filter].
      destruct (is_empty item); cbn [negb]; now rewrite Hsaid.
Qed.

(** X8.  The worker speaks in queue order and empties the queue: with an
    engine available, not stopped and idle, after at least as many passes
    as there are queued items, every non-empty item has been handed to the
    engine exactly once, in the order it was queued, whether or not the
    backend failed on some of them, and [is_busy] answers [False]. *)
Theorem worker_speaks_in_order (says : list (py_result unit))
    (t : TTSEngine) :
  engine t = true -> stop_speaking t = false -> is_speaking t = false ->
  List.length (speech_queue t) <= List.length says ->
  said (_speech_worker says t) = spoken_items (speech_queue t) /\
  speech_queue (after_worker (_speech_worker says t)) = [] /\
  is_busy (after_worker (_speech_worker says t)) = false.
Proof.
  intros He Hs Hidle Hlen.
  destruct (worker_drains says t He Hs Hidle Hlen) as (Hsaid & Hq & Hdone).
  repeat split; try assumption.
  unfold is_busy. now rewrite Hq, Hdone.
Qed.

(** ** More on the sanitizer *)

Lemma emoji_sub_pattern_only text :
  forallb emoji_pattern text = true -> emoji_sub text = [].
Proof.
  unfold emoji_sub. induction text as [| c r IH]; [reflexivity |].
  simpl. intros H. apply andb_true_iff in H. destruct H as [Hc Hr].
  rewrite Hc. simpl. now apply IH.
Qed.

(** X9.  A text made only of characters of the emoji pattern is sanitized
    to the empty string; when it is not blank, [speak] still puts that
    empty utterance on the queue. *)
Theorem pattern_only_text_is_emptied (text : str) :
  forallb emoji_pattern text = true ->
  _clean_text_for_speech text = [] /\
  (forall t,
      engine t = true -> is_empty (strip text) = false ->
      speech_queue (fst (speak text false (Returned quiet) t))
      = speech_queue t ++ [[]]).
Proof.
  intros Hp.
  assert (Hclean : _clean_text_for_speech text = []).
  { unfold _clean_text_for_speech.
    rewrite (emoji_sub_pattern_only text Hp). reflexivity. }
  split; [exact Hclean |].
  intros t He Hstrip. rewrite speak_queue, He, Hclean.
  destruct text as [| c r]; [discriminate Hstrip |].
  cbn [is_empty orb]. rewrite Hstrip. reflexivity.
Qed.

Lemma emoji_sub_plain text :
  forallb not_in_pattern text = true -> emoji_sub text = text.
Proof.
  unfold emoji_sub. induction text as [| c r IH]; [reflexivity |].
  simpl. intros H. apply andb_true_iff in H. destruct H as [Hc Hr].
  unfold not_in_pattern in Hc. rewrite Hc. now rewrite IH.
Qed.

Lemma replace_absent old new s :
  contains old s = false -> replace old new s = s.
Proof.
  destruct old as [| o old'].
  - destruct s; discriminate.
  - unfold replace. induction s as [| c r IH]; [reflexivity |].
    intros H. cbn [contains] in H. apply orb_false_iff in H.
    destruct H as [Hhere Hlater].
    cbn [replace_from]. rewrite Hhere. now rewrite IH.
Qed.

Lemma replace_all_absent rs : forall s,
  forallb (fun r => negb (contains (fst r) s)) rs = true ->
  replace_all rs s = s.
Proof.
  induction rs as [| r rs IH]; intros s H; [reflexivity |].
  cbn [forallb] in H. apply andb_true_iff in H. destruct H as [Hr Hrs].
  apply negb_true_iff in Hr.
  unfold replace_all in *. cbn [fold_left].
  rewrite (replace_absent (fst r) (snd r) s Hr). now apply IH.
Qed.

Lemma split_from_word w : forall cur s,
  forallb (fun c => negb (isspace c)) w = true ->
  split_from cur (w ++ s) = split_from (cur ++ w) s.
Proof.
  induction w as [| c w' IH]; intros cur s H.
  - now rewrite app_nil_r.
  - cbn [forallb] in H. apply andb_true_iff in H. destruct H as [Hc Hw].
    apply negb_true_iff in Hc.
    cbn [app split_from]. rewrite Hc, (IH (cur ++ [c]) s Hw).
    now rewrite <- app_assoc.
Qed.

(** [split] undoes [join] on words. *)
Lemma split_join_words ws :
  forallb word ws = true -> split (join (lit " ") ws) = ws.
Proof.
  unfold split. induction ws as [| w ws IH]; [reflexivity |].
  intros H. cbn [forallb] in H. apply andb_true_iff in H.
  destruct H as [Hw Hws]. unfold word in Hw.
  apply andb_true_iff in Hw. destruct Hw as [Hne Hns].
  destruct ws as [| w' ws'].
  - cbn [join]. rewrite <- (app_nil_r w) at 1.
    rewrite (split_from_word w [] [] Hns). cbn [app split_from].
    destruct w; [discriminate | reflexivity].
  - change (join (lit " ") (w :: w' :: ws'))
      with (w ++ 32%N :: join (lit " ") (w' :: ws')).
    rewrite (split_from_word w [] _ Hns). cbn [app].
    cbn [split_from]. change (isspace 32) with true. cbv iota.
    destruct w as [| c r]; [discriminate |].
    now rewrite (IH Hws).
Qed.

(** X10.  The sanitizer leaves plain text alone: words separated by single
    spaces, with no character of the emoji pattern and no occurrence of a
    key of [replacements], come out exactly as they went in. *)
Theorem clean_keeps_plain_text (ws : list str) :
  forallb word ws = true ->
  forallb not_in_pattern (join (lit " ") ws) = true ->
  forallb (fun r => negb (contains (fst r) (join (lit " ") ws)))
    replacements = true ->
  _clean_text_for_speech (join (lit " ") ws) = join (lit " ") ws.
Proof.
  intros Hws Hplain Habsent. unfold _clean_text_for_speech.
  rewrite (emoji_sub_plain _ Hplain).
  rewrite (replace_all_absent replacements _ Habsent).
  rewrite (split_join_words ws Hws).
  now apply strip_join_words.
Qed.

Lemma emoji_sub_chars (P : N -> bool) text :
  forallb P text = true -> forallb P (emoji_sub text) = true.
Proof.
  unfold emoji_sub. induction text as [| c r IH]; [reflexivity |].
  simpl. intros H. apply andb_true_iff in H. destruct H as [Hc Hr].
  destruct (emoji_pattern c); simpl; [now apply IH |].
  rewrite Hc. now apply IH.
Qed.

(** X11.  Sanitizing brings in no character but the space and those of
    the words of [replacements]: a class of characters that holds these
    and all the characters of a text holds all the characters of the
    sanitized text. *)
Theorem clean_stays_in_class (P : N -> bool) (text : str) :
  P 32%N = true ->
  forallb (fun r => forallb P (snd r)) replacements = true ->
  forallb P text = true ->
  forallb P (_clean_text_for_speech text) = true.
Proof.
  intros Hsp Hwords Htext. unfold _clean_text_for_speech.
  apply clean_chars_from; try assumption.
  now apply emoji_sub_chars.
Qed.

(** ** Concrete texts and engines *)

Definition idle_engine : TTSEngine :=
  {| engine := true; speech_queue := []; is_speaking := false;
     stop_speaking := false |}.

Definition no_engine : TTSEngine :=
  {| engine := false; speech_queue := []; is_speaking := false;
     stop_speaking := false |}.

Definition is_ascii (c : N) : bool := (c <? 128)%N.

Lemma speak_blank_is_ignored_witness :
  speak (lit "   ") true (Returned quiet) idle_engine = (idle_engine, []).
Proof.
  apply (@speak_blank_is_ignored (lit "   ") true (Returned quiet)
           idle_engine);
    reflexivity.
Defined.

Lemma speak_without_engine_witness :
  fst (speak_all [(lit "hello", false, Returned quiet)] no_engine) = no_engine.
Proof.
  rewrite (@speak_without_engine [(lit "hello", false, Returned quiet)]
             no_engine eq_refl).
  reflexivity.
Defined.

Lemma worker_speaks_in_order_witness :
  said (_speech_worker [Returned tt; Raised (lit "device busy"); Returned tt]
          (set_queue idle_engine [lit "one"; []; lit "two"]))
  = [lit "one"; lit "two"].
Proof.
  assert (Hlen : List.length
                   (speech_queue
                      (set_queue idle_engine [lit "one"; []; lit "two"]))
                 <= List.length
                      [Returned tt; Raised (lit "device busy"); Returned tt])
    by (apply le_n).
  destruct (@worker_speaks_in_order
              [Returned tt; Raised (lit "device busy"); Returned tt]
              (set_queue idle_engine [lit "one"; []; lit "two"])
              eq_refl eq_refl eq_refl Hlen) as (Hsaid & _).
  rewrite Hsaid. reflexivity.
Defined.

Lemma pattern_only_text_is_emptied_witness :
  _clean_text_for_speech [0x1F600%N; 0x2764%N] = [].
Proof.
  apply (@pattern_only_text_is_emptied [0x1F600%N; 0x2764%N]).
  reflexivity.
Defined.

Lemma clean_keeps_plain_text_witness :
  _clean_text_for_speech (lit "Good morning Ada.") = lit "Good morning Ada.".
Proof.
  apply (@clean_keeps_plain_text [lit "Good"; lit "morning"; lit "Ada."]);
    reflexivity.
Defined.

Lemma clean_stays_in_class_witness :
  forallb is_ascii (_clean_text_for_speech (lit "50% & more")) = true.
Proof.
  apply (@clean_stays_in_class is_ascii (lit "50% & more")); reflexivity.
Defined.

(** ** Shutdown *)

(** [TTSEngine.cleanup]: the flag that ends the worker loop is raised (the
    join and [engine.stop()] leave the fields alone). *)
Definition cleanup (t : TTSEngine) : TTSEngine :=
  {| engine := engine t; speech_queue := speech_queue t;
     is_speaking := is_speaking t; stop_speaking := true |}.

(** X20.  After [cleanup] the worker hands nothing more to the engine and
    takes nothing from the queue, however many passes it is given; what
    was queued, and what [speak] queues later, stays queued, so [is_busy]
    keeps answering [True] once something is in the queue. *)
Theorem cleanup_silences_worker (says : list (py_result unit))
    (text : str) (t : TTSEngine) :
  _speech_worker says (cleanup t) = (cleanup t, [], []) /\
  fst (speak text false (Returned quiet) (cleanup t))
  = cleanup (fst (speak text false (Returned quiet) t)) /\
  (forall item q,
      speech_queue t = item :: q ->
      is_busy (after_worker (_speech_worker says (cleanup t))) = true).
Proof.
  assert (Hworker : _speech_worker says (cleanup t) = (cleanup t, [], [])).
  { induction says as [| say rest IH]; [reflexivity |].
    rewrite worker_step.
    cbn [speech_worker_body cleanup stop_speaking fst snd].
    now rewrite IH. }
  split; [exact Hworker |]. split.
  - unfold speak. cbn [cleanup engine].
    destruct (engine t); cbn [negb]; [| reflexivity].
    destruct (is_empty text || is_empty (strip text)); reflexivity.
  - intros item q Hq. rewrite Hworker. unfold after_worker, is_busy.
    cbn [fst cleanup speech_queue]. rewrite Hq. apply orb_true_r.
Qed.

End TTS.

(* ===================================================================== *)
(** * chatbot/router.py *)
(* ===================================================================== *)

Module Router.
Import Py.

(** A Python object where the router expects a [str]. *)
Inductive pyobj : Type :=
| PStr (s : str)
| PObj (type_name : str).

(** What [news_mod.get_news] may hand back: a list, or anything else with
    its [str()]. *)
Inductive news_value : Type :=
| NewsList (items : list pyobj)
| NewsOther (as_str : str).

(** ["\n\n".join(items)]: a [TypeError] at the first item that is no [str]. *)
Fixpoint join_items (i : nat) (items : list pyobj) : py_result (list str) :=
  match items with
  | [] => Returned []
  | PStr s :: rest =>
      match join_items (S i) rest with
      | Returned ss => Returned (s :: ss)
      | Raised e => Raised e
      end
  | PObj ty :: _ =>
      Raised (lit "sequence item " ++ str_of_nat i
              ++ lit ": expected str instance, " ++ ty ++ lit " found")
  end.

(** [facts_mod.query_facts]: [chatbot/facts.py] defines no such function,
    so looking the attribute up raises [AttributeError]. *)
Definition query_facts (q : str) : py_result str :=
  Raised (lit "module 'chatbot.facts' has no attribute 'query_facts'").

Section Modules.

(** Tables of Python's [re]: the class [\w], and whether a pattern letter
    matches a character under [re.I]. *)
Variable is_word : N -> bool.
Variable same_letter : N -> N -> bool.

(** The modules the router calls; each call returns or raises. *)
Variable get_weather : str -> py_result str.
Variable get_news : str -> py_result news_value.
Variable extract_ticker : str -> py_result (option str).
Variable get_price_for_ticker : str -> py_result str.
Variable query_groq : str -> py_result str.

Definition word_at (c : option N) : bool :=
  match c with Some x => is_word x | None => false end.

(** [\b] between two neighbouring positions. *)
Definition boundary (before after : option N) : bool :=
  xorb (word_at before) (word_at after).

(** The rest of one alternative, then the closing [\b]. *)
Fixpoint match_alt (pat : str) (prev : option N) (s : str) : bool :=
  match pat with
  | [] => boundary prev (hd_error s)
  | p :: pat' =>
      match s with
      | [] => false
      | c :: s' => same_letter p c && match_alt pat' (Some c) s'
      end
  end.

(** [re.search(r"\b(a1|a2|...)\b", q, re.I)] as a truth value. *)
Fixpoint search_words (alts : list str) (prev : option N) (s : str) : bool :=
  (boundary prev (hd_error s) && existsb (fun a => match_alt a prev s) alts)
  || match s with
     | [] => false
     | c :: r => search_words alts (Some c) r
     end.

Definition _is_weather (q : str) : bool :=
  search_words
    (map lit ["weather"; "forecast"; "temperature"; "rain"; "rainfall";
              "sunrise"; "sunset"; "wind"; "humidity"]%string) None q.

Definition _is_news (q : str) : bool :=
  search_words
    (map lit ["news"; "headlines"; "breaking"; "latest"]%string) None q.

Definition _is_finance (q : str) : bool :=
  search_words
    (map lit ["stock"; "share"; "price"; "bitcoin"; "crypto"; "btc"; "eth";
              "market"; "nifty"; "sensex"]%string) None q.

Definition _is_fact (q : str) : bool :=
  search_words
    (map lit ["who"; "what"; "when"; "where"; "tell me about"; "define";
              "explain"; "is it true"]%string) None q.

Definition system (reply : str) : py_result (str * str) :=
  Returned (lit "system", reply).

Definition fallback : str :=
  lit "Sorry " ++ [0x2014%N] ++ lit " I couldn't answer that right now.".

(** The body of the outer [try] of [route]. *)
Definition route_body (q : str) : py_result (str * str) :=
  if _is_weather q then
    match get_weather q with
    | Returned text => Returned (lit "weather", text)
    | Raised e => system (lit "Weather module error: " ++ e)
    end
  else if _is_news q then
    match get_news q with
    | Returned (NewsList items) =>
        match join_items 0 items with
        | Returned ss => Returned (lit "gnews", join [10%N; 10%N] ss)
        | Raised e => system (lit "News module error: " ++ e)
        end
    | Returned (NewsOther text) => Returned (lit "gnews", text)
    | Raised e => system (lit "News module error: " ++ e)
    end
  else if _is_finance q then
    match extract_ticker q with
    | Returned (Some ((_ :: _) as ticker)) =>
        match get_price_for_ticker ticker with
        | Returned price => Returned (lit "finance", price)
        | Raised e => system (lit "Finance module error: " ++ e)
        end
    | Returned _ =>
        Returned (lit "finance",
                  lit "Please specify a company or ticker (e.g., 'Tata Motors', 'AAPL', 'BTC').")
    | Raised e => system (lit "Finance module error: " ++ e)
    end
  else
    let fact :=
      if _is_fact q
         || existsb (fun k => contains k (lower q))
              (map lit ["current"; "latest"; "today"; "now"; "as of"]%string)
      then match query_facts q with
           | Returned ((_ :: _) as fact) => Some fact
           | _ => None
           end
      else None in
    match fact with
    | Some fact => Returned (lit "fact", fact)
    | None =>
        match query_groq q with
        | Returned ((_ :: _) as ai_resp) => Returned (lit "ai", ai_resp)
        | _ => system fallback
        end
    end.

(** [route(query, chat_history)]; [None] stands for a missing query. *)
Definition route (query : option str) (chat_history : list message)
  : py_result (str * str) :=
  let q := strip (match query with Some s => s | None => [] end) in
  match route_body q with
  | Returned r => Returned r
  | Raised e => system (lit "Router error: " ++ e)
  end.

(** The query as the router sees it. *)
Definition cleaned (query : option str) : str :=
  strip (match query with Some s => s | None => [] end).

Definition source_tags : list str :=
  map lit ["system"; "weather"; "gnews"; "finance"; "ai"]%string.

(** ** The claim on the router *)

Ltac known_tag :=
  unfold source_tags; cbn [map In];
  repeat (first [left; reflexivity | right]).

Ltac answered :=
  eexists; eexists; split; [reflexivity | known_tag].

Lemma route_body_returns q :
  exists tag reply,
    route_body q = Returned (tag, reply) /\ In tag source_tags.
Proof.
  unfold route_body, system.
  destruct (_is_weather q).
  { destruct (get_weather q); answered. }
  destruct (_is_news q).
  { destruct (get_news q) as [[items | text] | e].
    - destruct (join_items 0 items); answered.
    - answered.
    - answered. }
  destruct (_is_finance q).
  { destruct (extract_ticker q) as [[[| c ticker] |] | e].
    - answered.
    - destruct (get_price_for_ticker (c :: ticker)); answered.
    - answered.
    - answered. }
  unfold query_facts.
  destruct (_is_fact q ||
            existsb (fun k => contains k (lower q))
              (map lit ["current"; "latest"; "today"; "now"; "as of"]%string));
    cbv iota zeta;
    destruct (query_groq q) as [[| c ai] | e]; answered.
Qed.

(** When no earlier branch takes the query, the facts step yields nothing
    and the language model decides. *)
Lemma route_body_llm q :
  _is_weather q = false -> _is_news q = false -> _is_finance q = false ->
  route_body q
  = match query_groq q with
    | Returned ((_ :: _) as ai_resp) => Returned (lit "ai", ai_resp)
    | _ => system fallback
    end.
Proof.
  intros Hw Hn Hf. unfold route_body. rewrite Hw, Hn, Hf.
  unfold query_facts.
  destruct (_is_fact q ||
            existsb (fun k => contains k (lower q))
              (map lit ["current"; "latest"; "today"; "now"; "as of"]%string));
    reflexivity.
Qed.

(** C10, as amended.  For every query, [None] and the empty string
    included, and every history, [route] returns a pair of a source tag
    and a reply and raises nothing.  An exception of the weather module,
    of the news module (or of joining its items), or of the finance
    module, in the look-up of the ticker as in the look-up of its price,
    becomes a reply tagged ["system"] that names the module;
    the missing [query_facts] is passed over in silence, the query going on
    to the language model, whose answer is tagged ["ai"]; when the language
    model raises or answers nothing, the ["system"] fallback is
    returned. *)
Theorem route_total (query : option str) (chat_history : list message) :
  (exists tag reply,
      route query chat_history = Returned (tag, reply) /\
      In tag source_tags) /\
  (_is_weather (cleaned query) = true ->
   forall e, get_weather (cleaned query) = Raised e ->
     route query chat_history
     = system (lit "Weather module error: " ++ e)) /\
  (_is_weather (cleaned query) = false ->
   _is_news (cleaned query) = true ->
   forall e, get_news (cleaned query) = Raised e ->
     route query chat_history = system (lit "News module error: " ++ e)) /\
  (_is_weather (cleaned query) = false ->
   _is_news (cleaned query) = true ->
   forall items e,
     get_news (cleaned query) = Returned (NewsList items) ->
     join_items 0 items = Raised e ->
     route query chat_history = system (lit "News module error: " ++ e)) /\
  (_is_weather (cleaned query) = false ->
   _is_news (cleaned query) = false ->
   _is_finance (cleaned query) = true ->
   forall e, extract_ticker (cleaned query) = Raised e ->
     route query chat_history
     = system (lit "Finance module error: " ++ e)) /\
  (_is_weather (cleaned query) = false ->
   _is_news (cleaned query) = false ->
   _is_finance (cleaned query) = true ->
   forall c ticker e,
     extract_ticker (cleaned query) = Returned (Some (c :: ticker)) ->
     get_price_for_ticker (c :: ticker) = Raised e ->
     route query chat_history
     = system (lit "Finance module error: " ++ e)) /\
  (_is_weather (cleaned query) = false ->
   _is_news (cleaned query) = false ->
   _is_finance (cleaned query) = false ->
   (forall e, query_groq (cleaned query) = Raised e ->
      route query chat_history = system fallback) /\
   (query_groq (cleaned query) = Returned [] ->
      route query chat_history = system fallback) /\
   (forall c ai, query_groq (cleaned query) = Returned (c :: ai) ->
      route query chat_history = Returned (lit "ai", c :: ai))).
Proof.
  unfold route. fold (cleaned query).
  split.
  { destruct (route_body_returns (cleaned query)) as (tag & reply & H & Ht).
    rewrite H. eauto. }
  split.
  { intros Hw e He. unfold route_body. rewrite Hw, He. reflexivity. }
  split.
  { intros Hw Hn e He. unfold route_body. rewrite Hw, Hn, He. reflexivity. }
  split.
  { intros Hw Hn items e He Hj. unfold route_body.
    rewrite Hw, Hn, He, Hj. reflexivity. }
  split.
  { intros Hw Hn Hf e He. unfold route_body. rewrite Hw, Hn, Hf, He.
    reflexivity. }
  split.
  { intros Hw Hn Hf c ticker e Ht He. unfold route_body.
    rewrite Hw, Hn, Hf, Ht, He. reflexivity. }
  intros Hw Hn Hf. rewrite (route_body_llm _ Hw Hn Hf).
  repeat split.
  - intros e He. rewrite He. reflexivity.
  - intros He. rewrite He. reflexivity.
  - intros c ai He. rewrite He. reflexivity.
Qed.

End Modules.

(** ** A concrete run *)

(** ASCII tables for [re]. *)
Definition ascii_word (c : N) : bool :=
  ((48 <=? c) && (c <=? 57) || (65 <=? c) && (c <=? 90)
   || (97 <=? c) && (c <=? 122) || (c =? 95))%N.

Definition ascii_same_letter (p c : N) : bool :=
  (lower_char p =? lower_char c)%N.

(** C10 as stated fails on the facts module: for a question such as
    ["who is Ada"] the look-up of [query_facts] raises, and the reply that
    comes back is the language model's, tagged ["ai"], not ["system"]. *)
Lemma route_counterexample :
  _is_fact ascii_word ascii_same_letter (lit "who is Ada") = true /\
  query_facts (lit "who is Ada")
  = Raised (lit "module 'chatbot.facts' has no attribute 'query_facts'") /\
  route ascii_word ascii_same_letter
    (fun _ => Returned (lit "sunny"))
    (fun _ => Returned (NewsList []))
    (fun _ => Returned None)
    (fun _ => Returned (lit "0"))
    (fun _ => Returned (lit "Ada Lovelace was a mathematician."))
    (Some (lit "who is Ada")) []
  = Returned (lit "ai", lit "Ada Lovelace was a mathematician.").
Proof. repeat split. Qed.

(** ** Blank queries *)

(** A query that is missing, empty or white space only. *)
Definition blank (query : option str) : bool :=
  match query with
  | None => true
  | Some s => forallb isspace s
  end.

Section Blank.

Variable is_word : N -> bool.
Variable same_letter : N -> N -> bool.
Variable get_weather : str -> py_result str.
Variable get_news : str -> py_result news_value.
Variable extract_ticker : str -> py_result (option str).
Variable get_price_for_ticker : str -> py_result str.
Variable query_groq : str -> py_result str.

Lemma cleaned_blank query : blank query = true -> cleaned query = [].
Proof.
  unfold cleaned. destruct query as [s |]; cbn [blank]; intros H.
  - now apply TTS.strip_blank.
  - reflexivity.
Qed.

(** X12.  A query that is missing, empty or blank matches no keyword,
    whatever the tables of [re]: neither the weather, news and finance
    modules nor the facts step see it, and the reply is the language
    model's answer to the empty prompt, tagged ["ai"], or the ["system"]
    fallback when the model raises or answers nothing. *)
Theorem blank_query_goes_to_llm (query : option str)
    (chat_history : list message) :
  blank query = true ->
  route is_word same_letter get_weather get_news extract_ticker
    get_price_for_ticker query_groq query chat_history
  = match query_groq [] with
    | Returned ((_ :: _) as ai_resp) => Returned (lit "ai", ai_resp)
    | _ => system fallback
    end.
Proof.
  intros Hblank. unfold route. fold (cleaned query).
  rewrite (cleaned_blank query Hblank).
  rewrite (route_body_llm is_word same_letter get_weather get_news
             extract_ticker get_price_for_ticker query_groq [])
    by reflexivity.
  destruct (query_groq []) as [[| c ai] | e]; reflexivity.
Qed.

End Blank.

Lemma blank_query_goes_to_llm_witness :
  route ascii_word ascii_same_letter
    (fun _ => Returned (lit "sunny"))
    (fun _ => Returned (NewsList []))
    (fun _ => Returned None)
    (fun _ => Returned (lit "0"))
    (fun _ => Returned (lit "Hello!"))
    (Some (lit "   ")) []
  = Returned (lit "ai", lit "Hello!").
Proof.
  rewrite (@blank_query_goes_to_llm ascii_word ascii_same_letter
             (fun _ => Returned (lit "sunny"))
             (fun _ => Returned (NewsList []))
             (fun _ => Returned None)
             (fun _ => Returned (lit "0"))
             (fun _ => Returned (lit "Hello!"))
             (Some (lit "   ")) [] eq_refl).
  reflexivity.
Defined.

End Router.

(* ===================================================================== *)
(** * app.py *)
(* ===================================================================== *)

Module App.
Import Py.

(** [a < b] on clock readings, as a truth value. *)
Definition Qltb (a b : Q) : bool := negb (Qle_bool b a).

Lemma Qltb_lt a b : Qltb a b = true <-> (a < b)%Q.
Proof.
  unfold Qltb. rewrite negb_true_iff. split; intros H.
  - apply Qnot_le_lt. intros Hle. apply Qle_bool_iff in Hle. congruence.
  - destruct (Qle_bool b a) eqn:Hb; [| reflexivity].
    apply Qle_bool_iff in Hb. exfalso. exact (Qlt_not_le _ _ H Hb).
Qed.

Lemma Qltb_ge a b : Qltb a b = false <-> (b <= a)%Q.
Proof.
  unfold Qltb. rewrite negb_false_iff. apply Qle_bool_iff.
Qed.

(** What [datetime.now()] reads. *)
Record datetime : Type := mkDatetime {
  hour : nat;
  minute : nat;
  second : nat
}.

Definition two_digits (n : nat) : str :=
  if n <? 10 then lit "0" ++ str_of_nat n else str_of_nat n.

(** [d.strftime("%H:%M")] *)
Definition strftime_HM (d : datetime) : str :=
  two_digits (hour d) ++ lit ":" ++ two_digits (minute d).

(** The fields of [SmartVisionBot].  [chat_threads] counts the threads
    started on [start_chat_session]; [console] is what was printed. *)
Record SmartVisionBot : Type := mkBot {
  tts_engine : TTS.TTSEngine;
  identified : bool;
  current_person : option str;
  last_greeting_time : Q;
  chat_history : list message;
  running : bool;
  chat_threads : nat;
  console : list str
}.

(** [SmartVisionBot.__init__] *)
Definition init (tts : TTS.TTSEngine) : SmartVisionBot :=
  {| tts_engine := tts; identified := false; current_person := None;
     last_greeting_time := 0%Q; chat_history := []; running := true;
     chat_threads := 0; console := [] |}.

Definition robot_says (text : str) : str := [0x1F916%N] ++ lit ": " ++ text.

(** The greeting of [greet_person].  The clock is read three times: for
    the time shown, for the first test and for the second. *)
Definition greeting_text (person_name : str) (shown test1 test2 : datetime)
  : str :=
  let greeting_time := strftime_HM shown in
  if hour test1 <? 12 then
    lit "Good morning " ++ person_name ++ lit "! It's " ++ greeting_time
    ++ lit ". How can I help you today?"
  else if hour test2 <? 17 then
    lit "Good afternoon " ++ person_name ++ lit "! It's " ++ greeting_time
    ++ lit ". What can I do for you?"
  else
    lit "Good evening " ++ person_name ++ lit "! It's " ++ greeting_time
    ++ lit ". How may I assist you?".

Definition system_message (person_name : str) : message :=
  {| role := lit "system";
     content := lit "You are a helpful AI assistant talking to "
                ++ person_name ++ lit ". Be friendly and conversational." |}.

(** [SmartVisionBot.greet_person]; [current_time] is [time.time()]. *)
Definition greet_person (person_name : str) (current_time : Q)
    (shown test1 test2 : datetime) (bot : SmartVisionBot) : SmartVisionBot :=
  if Qltb (current_time - last_greeting_time bot)%Q 15%Q then bot
  else
    let greeting := greeting_text person_name shown test1 test2 in
    let '(tts, out) :=
      TTS.speak greeting false (Returned TTS.quiet) (tts_engine bot) in
    {| tts_engine := tts;
       identified := true;
       current_person := Some person_name;
       last_greeting_time := current_time;
       chat_history := [system_message person_name];
       running := running bot;
       chat_threads := chat_threads bot;
       console := console bot ++ [robot_says greeting] ++ out |}.

Section Vision.

(** The detector and the recognizer are used through their interface:
    [FaceDetector.detect] gives the boxes of a frame,
    [FaceRecognizer.identify] a name or [None]. *)
Variable frame : Type.
Variable box : Type.
Variable detect : frame -> list box.
Variable identify : frame -> box -> option str.

(** Calls made to the detector and the recognizer. *)
Inductive call : Type :=
| Detect (f : frame)
| Identify (f : frame) (b : box).

(** [SmartVisionBot.detect_and_recognize], with the calls it makes. *)
Definition detect_and_recognize (f : frame) (bot : SmartVisionBot)
  : option str * list call :=
  if identified bot then (None, [])
  else
    match detect f with
    | [] => (None, [Detect f])
    | b :: _ => (identify f b, [Detect f; Identify f b])
    end.

Definition thread_started (bot : SmartVisionBot) : SmartVisionBot :=
  {| tts_engine := tts_engine bot; identified := identified bot;
     current_person := current_person bot;
     last_greeting_time := last_greeting_time bot;
     chat_history := chat_history bot; running := running bot;
     chat_threads := S (chat_threads bot); console := console bot |}.

(** One pass of the loop of [run] on a frame that was read: the boxes are
    detected for display, then recognition is tried when nobody is
    identified. *)
Definition run_iteration (f : frame) (current_time : Q)
    (shown test1 test2 : datetime) (bot : SmartVisionBot)
  : SmartVisionBot * list call :=
  let display := [Detect f] in
  if negb (identified bot) then
    let '(person_name, calls) := detect_and_recognize f bot in
    match person_name with
    | Some ((_ :: _) as name) =>
        (thread_started (greet_person name current_time shown test1 test2 bot),
         display ++ calls)
    | _ => (bot, display ++ calls)
    end
  else (bot, display).

End Vision.

(** ** The chat session *)

(** What [input()] does on one turn. *)
Inductive keyboard : Type :=
| Typed (line : str)
| InputError (msg : str)      (* [EOFError] and the like *)
| Interrupt.                  (* [KeyboardInterrupt] *)

(** One turn: the keyboard, what [chat_router.process_query] does if it is
    called, and whether [cleanup] clears [running] during the turn. *)
Record turn : Type := mkTurn {
  keys : keyboard;
  router_reply : py_result str;
  stop_request : bool
}.

Inductive flow : Type :=
| Continue (voice_enabled : bool)
| Break.

Definition print (line : str) (bot : SmartVisionBot) : SmartVisionBot :=
  {| tts_engine := tts_engine bot; identified := identified bot;
     current_person := current_person bot;
     last_greeting_time := last_greeting_time bot;
     chat_history := chat_history bot; running := running bot;
     chat_threads := chat_threads bot; console := console bot ++ [line] |}.

(** [self.tts_engine.speak(text)] *)
Definition speak (text : str) (bot : SmartVisionBot) : SmartVisionBot :=
  let '(tts, out) := TTS.speak text false (Returned TTS.quiet) (tts_engine bot) in
  {| tts_engine := tts; identified := identified bot;
     current_person := current_person bot;
     last_greeting_time := last_greeting_time bot;
     chat_history := chat_history bot; running := running bot;
     chat_threads := chat_threads bot; console := console bot ++ out |}.

(** [f"{self.current_person}"] *)
Definition person (bot : SmartVisionBot) : str :=
  match current_person bot with Some n => n | None => lit "None" end.

Definition chat_error (e : str) : str :=
  [0x274C%N] ++ lit " Error in chat: " ++ e.

Definition end_phrases : list str := map lit ["quit"; "exit"; "bye"]%string.

(** The body of the [while] loop of [start_chat_session]. *)
Definition chat_turn (voice_enabled : bool) (t : turn) (bot : SmartVisionBot)
  : SmartVisionBot * flow :=
  let bot := print ([10%N] ++ person bot ++ lit ": ") bot in
  match keys t with
  | Interrupt => (bot, Break)
  | InputError e => (print (chat_error e) bot, Continue voice_enabled)
  | Typed line =>
      let user_input := strip line in
      if existsb (str_eqb (lower user_input)) end_phrases then
        let farewell :=
          lit "Goodbye " ++ person bot ++ lit "! Have a great day!" in
        let bot := print (robot_says farewell) bot in
        (if voice_enabled then speak farewell bot else bot, Break)
      else if str_eqb (lower user_input) (lit "voice on") then
        (print (robot_says (lit "Voice responses enabled!")) bot,
         Continue true)
      else if str_eqb (lower user_input) (lit "voice off") then
        (print (robot_says (lit "Voice responses disabled!")) bot,
         Continue false)
      else if TTS.is_empty user_input then (bot, Continue voice_enabled)
      else
        match router_reply t with
        | Returned response =>
            let bot := print (robot_says response) bot in
            (if voice_enabled then speak response bot else bot,
             Continue voice_enabled)
        | Raised e => (print (chat_error e) bot, Continue voice_enabled)
        end
  end.

Definition stop_seen (t : turn) (bot : SmartVisionBot) : SmartVisionBot :=
  if stop_request t then
    {| tts_engine := tts_engine bot; identified := identified bot;
       current_person := current_person bot;
       last_greeting_time := last_greeting_time bot;
       chat_history := chat_history bot; running := false;
       chat_threads := chat_threads bot; console := console bot |}
  else bot.

(** Where a session stands once the script of turns is used up. *)
Inductive session : Type :=
| Ended (bot : SmartVisionBot)
| AwaitingInput (voice_enabled : bool) (bot : SmartVisionBot).

(** [while self.identified and self.running: ...] *)
Fixpoint chat_loop (voice_enabled : bool) (script : list turn)
    (bot : SmartVisionBot) : session :=
  if identified bot && running bot then
    match script with
    | [] => AwaitingInput voice_enabled bot
    | t :: rest =>
        match chat_turn voice_enabled t bot with
        | (bot1, Break) => Ended bot1
        | (bot1, Continue v) => chat_loop v rest (stop_seen t bot1)
        end
    end
  else Ended bot.

Definition reset_state (bot : SmartVisionBot) : SmartVisionBot :=
  {| tts_engine := tts_engine bot; identified := false;
     current_person := None;
     last_greeting_time := last_greeting_time bot;
     chat_history := []; running := running bot;
     chat_threads := chat_threads bot;
     console := console bot
                ++ [[10%N; 0x1F504%N]
                    ++ lit " Chat session ended. Looking for faces again..."] |}.

(** [SmartVisionBot.start_chat_session] *)
Definition start_chat_session (script : list turn) (bot : SmartVisionBot)
  : session :=
  let bot :=
    print (repeat 45%N 50)
      (print (lit "Type 'voice on/off' to toggle voice responses")
         (print (lit "Type 'quit' or 'exit' to end the session")
            (print ([10%N; 0x1F4AC%N] ++ lit " Chat session started with "
                    ++ person bot) bot))) in
  match chat_loop true script bot with
  | Ended b => Ended (reset_state b)
  | AwaitingInput v b => AwaitingInput v b
  end.

(** The input of a turn goes to the router: it is no command and not
    blank. *)
Definition for_router (line : str) : bool :=
  negb (existsb (str_eqb (lower (strip line))) end_phrases)
  && negb (str_eqb (lower (strip line)) (lit "voice on"))
  && negb (str_eqb (lower (strip line)) (lit "voice off"))
  && negb (TTS.is_empty (strip line)).

(** ** Greeting *)

Lemma lstrip_keeps_last c : forall l,
  isspace c = false -> TTS.is_empty (lstrip (l ++ [c])) = false.
Proof.
  intros l Hc. induction l as [| x l IH]; simpl.
  - now rewrite Hc.
  - destruct (isspace x); [exact IH | reflexivity].
Qed.

Lemma is_empty_rev (s : str) : TTS.is_empty (rev s) = TTS.is_empty s.
Proof.
  destruct s as [| c r]; [reflexivity |]. simpl.
  destruct (rev r); reflexivity.
Qed.

(** A text that starts with a letter is not blank. *)
Lemma not_blank c r :
  isspace c = false ->
  TTS.is_empty (c :: r) || TTS.is_empty (strip (c :: r)) = false.
Proof.
  intros Hc. simpl TTS.is_empty at 1. simpl orb.
  unfold strip, rstrip. rewrite is_empty_rev.
  rewrite (TTS.lstrip_word_first c r Hc). simpl rev.
  now apply lstrip_keeps_last.
Qed.

Lemma greeting_not_blank name shown test1 test2 :
  TTS.is_empty (greeting_text name shown test1 test2)
  || TTS.is_empty (strip (greeting_text name shown test1 test2)) = false.
Proof.
  unfold greeting_text.
  destruct (hour test1 <? 12); [| destruct (hour test2 <? 17)];
    now apply not_blank.
Qed.

(** The state after a greeting that is not suppressed. *)
Lemma greet_person_accepted name t shown test1 test2 bot :
  Qltb (t - last_greeting_time bot)%Q 15%Q = false ->
  greet_person name t shown test1 test2 bot
  = let greeting := greeting_text name shown test1 test2 in
    {| tts_engine := fst (TTS.speak greeting false (Returned TTS.quiet)
                            (tts_engine bot));
       identified := true;
       current_person := Some name;
       last_greeting_time := t;
       chat_history := [system_message name];
       running := running bot;
       chat_threads := chat_threads bot;
       console := console bot ++ [robot_says greeting]
                  ++ snd (TTS.speak greeting false (Returned TTS.quiet)
                            (tts_engine bot)) |}.
Proof.
  intros H. unfold greet_person. rewrite H. cbv zeta.
  destruct (TTS.speak (greeting_text name shown test1 test2) false
              (Returned TTS.quiet) (tts_engine bot)); reflexivity.
Qed.

(** C1.  A call of [greet_person] made less than 15 seconds after the last
    accepted greeting does nothing, whoever is named: the bot is left as it
    was, so nobody becomes identified, [current_person], the debounce
    time and the chat history stay, and nothing is queued for speech or
    printed. *)
Theorem greet_person_debounced (person_name : str) (current_time : Q)
    (shown test1 test2 : datetime) (bot : SmartVisionBot) :
  (current_time - last_greeting_time bot < 15)%Q ->
  greet_person person_name current_time shown test1 test2 bot = bot /\
  identified (greet_person person_name current_time shown test1 test2 bot)
  = identified bot /\
  current_person (greet_person person_name current_time shown test1 test2 bot)
  = current_person bot /\
  last_greeting_time
    (greet_person person_name current_time shown test1 test2 bot)
  = last_greeting_time bot /\
  chat_history (greet_person person_name current_time shown test1 test2 bot)
  = chat_history bot /\
  TTS.speech_queue
    (tts_engine (greet_person person_name current_time shown test1 test2 bot))
  = TTS.speech_queue (tts_engine bot) /\
  console (greet_person person_name current_time shown test1 test2 bot)
  = console bot.
Proof.
  intros Hlt. apply Qltb_lt in Hlt.
  assert (Hsame : greet_person person_name current_time shown test1 test2 bot
                  = bot).
  { unfold greet_person. now rewrite Hlt. }
  rewrite Hsame. repeat split.
Qed.

(** C3, as amended.  Every call of [greet_person] made at least 15 seconds
    after the last accepted greeting builds a greeting that holds the name
    and the time as HH:MM and depends only on the name and on the hours
    and the minute read from the clock; when the hour does not change
    between the readings of the call, it is the morning text before 12,
    the afternoon text from 12 to before 17, the evening text from 17 on.
    The greeting is printed; the debounce time becomes [current_time],
    [identified] becomes true, [current_person] the name, and the chat
    history the single system message naming the person.  When the speech
    engine is available exactly one utterance, the sanitized greeting,
    joins the queue; when it is not, nothing is queued and the greeting
    is printed once more instead. *)
Theorem greet_person_greets (person_name : str) (current_time : Q)
    (shown test1 test2 : datetime) (bot : SmartVisionBot) :
  (15 <= current_time - last_greeting_time bot)%Q ->
  let greeting := greeting_text person_name shown test1 test2 in
  let bot' :=
    greet_person person_name current_time shown test1 test2 bot in
  (hour test1 = hour shown -> hour test2 = hour shown ->
   (hour shown < 12 ->
    greeting = lit "Good morning " ++ person_name ++ lit "! It's "
               ++ strftime_HM shown ++ lit ". How can I help you today?") /\
   (12 <= hour shown < 17 ->
    greeting = lit "Good afternoon " ++ person_name ++ lit "! It's "
               ++ strftime_HM shown ++ lit ". What can I do for you?") /\
   (17 <= hour shown ->
    greeting = lit "Good evening " ++ person_name ++ lit "! It's "
               ++ strftime_HM shown ++ lit ". How may I assist you?")) /\
  (exists opening closing,
      greeting = opening ++ person_name ++ lit "! It's "
                 ++ strftime_HM shown ++ closing) /\
  (forall shown' test1' test2',
      hour shown' = hour shown -> minute shown' = minute shown ->
      hour test1' = hour test1 -> hour test2' = hour test2 ->
      greeting_text person_name shown' test1' test2' = greeting) /\
  identified bot' = true /\
  current_person bot' = Some person_name /\
  last_greeting_time bot' = current_time /\
  chat_history bot'
  = [{| role := lit "system";
        content := lit "You are a helpful AI assistant talking to "
                   ++ person_name
                   ++ lit ". Be friendly and conversational." |}] /\
  (TTS.engine (tts_engine bot) = true ->
   TTS.speech_queue (tts_engine bot')
   = TTS.speech_queue (tts_engine bot)
     ++ [TTS._clean_text_for_speech greeting] /\
   console bot' = console bot ++ [[0x1F916%N] ++ lit ": " ++ greeting]) /\
  (TTS.engine (tts_engine bot) = false ->
   TTS.speech_queue (tts_engine bot') = TTS.speech_queue (tts_engine bot) /\
   console bot'
   = console bot ++ [[0x1F916%N] ++ lit ": " ++ greeting;
                     [0x1F916%N] ++ lit ": " ++ greeting]).
Proof.
  intros Hge greeting bot'. apply Qltb_ge in Hge.
  assert (Hbot : bot' = _) by exact (greet_person_accepted _ _ _ _ _ _ Hge).
  cbv zeta in Hbot. fold greeting in Hbot.
  split.
  { intros H1 H2. subst greeting. unfold greeting_text. rewrite H1, H2.
    split; [| split].
    - intros H. apply Nat.ltb_lt in H. now rewrite H.
    - intros [Ha Hb]. apply Nat.ltb_ge in Ha. apply Nat.ltb_lt in Hb.
      now rewrite Ha, Hb.
    - intros H.
      assert (Ha : (hour shown <? 12) = false) by (apply Nat.ltb_ge; lia).
      apply Nat.ltb_ge in H. now rewrite Ha, H. }
  split.
  { subst greeting. unfold greeting_text.
    destruct (hour test1 <? 12); [| destruct (hour test2 <? 17)];
      eexists; eexists; reflexivity. }
  split.
  { intros shown' test1' test2' Hh Hm H1 H2. subst greeting.
    unfold greeting_text, strftime_HM. now rewrite Hh, Hm, H1, H2. }
  rewrite Hbot. cbn [identified current_person last_greeting_time
                     chat_history tts_engine console].
  repeat (split; [reflexivity |]).
  pose proof (greeting_not_blank person_name shown test1 test2) as Hnb.
  fold greeting in Hnb.
  split; intros He.
  - split.
    + rewrite TTS.speak_queue, He, Hnb. reflexivity.
    + unfold TTS.speak. rewrite He, Hnb. reflexivity.
  - split.
    + rewrite TTS.speak_queue, He. reflexivity.
    + unfold TTS.speak. rewrite He. reflexivity.
Qed.

(** ** Recognition gate *)

Section Gate.

Variable frame : Type.
Variable box : Type.
Variable detect : frame -> list box.
Variable identify : frame -> box -> option str.

(** C4.  While somebody is identified, [detect_and_recognize] returns
    [None] for every frame without calling the detector or the recognizer,
    and a pass of the main loop leaves the bot as it is: no greeting, no
    new chat thread, and no call of [identify], the only call being the
    detection of the boxes that are drawn. *)
Theorem recognition_gated (f : frame) (bot : SmartVisionBot) :
  identified bot = true ->
  detect_and_recognize detect identify f bot = (None, []) /\
  (forall current_time shown test1 test2,
      run_iteration detect identify f current_time shown test1 test2 bot
      = (bot, [Detect box f])) /\
  (forall current_time shown test1 test2 b,
      ~ In (Identify f b)
          (snd (run_iteration detect identify f current_time shown test1
                  test2 bot))).
Proof.
  intros Hid. unfold run_iteration, detect_and_recognize. rewrite Hid.
  simpl. repeat split. intros _ _ _ _ b [H | []]. discriminate H.
Qed.

End Gate.

(** ** Chat turns *)

(** C8.  A turn whose input goes to the router and whose router call
    raises: the exception is caught, the line made of the cross mark
    U+274C, [" Error in chat: "] and the message of the exception is
    printed after the prompt, and the loop goes on with the same voice
    setting; [identified] stays true,
    [current_person], the chat history and the speech queue are as before;
    the next turn is taken from there, and with the script used up the
    session waits for the next input. *)
Theorem router_failure_is_turn_error (voice_enabled : bool) (line e : str)
    (stop : bool) (rest : list turn) (bot : SmartVisionBot) :
  identified bot = true -> running bot = true -> for_router line = true ->
  let t := {| keys := Typed line; router_reply := Raised e;
              stop_request := stop |} in
  let bot' := fst (chat_turn voice_enabled t bot) in
  snd (chat_turn voice_enabled t bot) = Continue voice_enabled /\
  identified bot' = true /\
  current_person bot' = current_person bot /\
  chat_history bot' = chat_history bot /\
  tts_engine bot' = tts_engine bot /\
  running bot' = true /\
  console bot'
  = console bot
    ++ [[10%N]
        ++ match current_person bot with
           | Some n => n
           | None => lit "None"
           end
        ++ lit ": ";
        [0x274C%N] ++ lit " Error in chat: " ++ e] /\
  chat_loop voice_enabled (t :: rest) bot
  = chat_loop voice_enabled rest (stop_seen t bot') /\
  (stop = false ->
   chat_loop voice_enabled [t] bot = AwaitingInput voice_enabled bot').
Proof.
  intros Hid Hrun Hline t bot'.
  unfold for_router in Hline.
  apply andb_true_iff in Hline. destruct Hline as [Hline Hblank].
  apply andb_true_iff in Hline. destruct Hline as [Hline Hoff].
  apply andb_true_iff in Hline. destruct Hline as [Hend Hon].
  apply negb_true_iff in Hend, Hon, Hoff, Hblank.
  assert (Hturn : chat_turn voice_enabled t bot
                  = (print (chat_error e)
                       (print ([10%N] ++ person bot ++ lit ": ") bot),
                     Continue voice_enabled)).
  { unfold chat_turn. subst t. cbn [keys router_reply].
    cbv zeta. rewrite Hend, Hon, Hoff, Hblank. reflexivity. }
  subst bot'. rewrite Hturn. cbn [fst snd].
  cbn [print identified current_person chat_history tts_engine running
       console].
  repeat (split; [first [reflexivity | assumption] |]).
  split; [now rewrite <- app_assoc |].
  split.
  - cbn [chat_loop]. rewrite Hid, Hrun, Hturn. reflexivity.
  - intros Hstop. cbn [chat_loop]. rewrite Hid, Hrun, Hturn.
    unfold stop_seen. subst t. cbn [stop_request]. rewrite Hstop.
    cbn [print identified running]. rewrite Hid, Hrun. reflexivity.
Qed.

(** ** Concrete runs *)

Definition speaking_bot : SmartVisionBot :=
  init {| TTS.engine := true; TTS.speech_queue := [];
          TTS.is_speaking := false; TTS.stop_speaking := false |}.

Definition mute_bot : SmartVisionBot :=
  init {| TTS.engine := false; TTS.speech_queue := [];
          TTS.is_speaking := false; TTS.stop_speaking := false |}.

Definition nine_five : datetime := {| hour := 9; minute := 5; second := 30 |}.

(** Ada was greeted at second 100 and is in a session. *)
Definition with_ada : SmartVisionBot :=
  greet_person (lit "Ada") 100%Q nine_five nine_five nine_five speaking_bot.

Lemma greet_person_debounced_witness :
  greet_person (lit "Bob") 110%Q nine_five nine_five nine_five with_ada
  = with_ada.
Proof.
  apply (@greet_person_debounced (lit "Bob") 110%Q nine_five nine_five
           nine_five with_ada).
  reflexivity.
Defined.

Lemma greet_person_greets_witness :
  TTS.speech_queue (tts_engine with_ada)
  = [lit "Good morning Ada! It's 09:05. How can I help you today?"] /\
  identified with_ada = true.
Proof.
  assert (Hge : (15 <= 100 - last_greeting_time speaking_bot)%Q)
    by discriminate.
  pose proof (@greet_person_greets (lit "Ada") 100%Q nine_five nine_five
                nine_five speaking_bot Hge) as H.
  cbv zeta in H.
  destruct H as (_ & _ & _ & Hid & _ & _ & _ & Hq & _).
  destruct (Hq eq_refl) as [Hqueue _].
  split; [| exact Hid].
  unfold with_ada. rewrite Hqueue. reflexivity.
Defined.

(** One minute to midnight, and midnight. *)
Definition before_midnight : datetime :=
  {| hour := 23; minute := 59; second := 59 |}.
Definition midnight : datetime := {| hour := 0; minute := 0; second := 0 |}.

(** C3 as stated fails twice.  When the speech engine did not initialize
    the greeting is accepted and printed, and no utterance is queued.  And
    a call that reads the clock on both sides of midnight greets with the
    afternoon text at 23:59. *)
Lemma greet_person_counterexample :
  TTS.speech_queue
    (tts_engine
       (greet_person (lit "Ada") 100%Q nine_five nine_five nine_five
          mute_bot)) = [] /\
  identified
    (greet_person (lit "Ada") 100%Q nine_five nine_five nine_five mute_bot)
  = true /\
  greeting_text (lit "Ada") before_midnight before_midnight midnight
  = lit "Good afternoon Ada! It's 23:59. What can I do for you?".
Proof. repeat split. Qed.

Lemma recognition_gated_witness :
  detect_and_recognize (fun _ : nat => [tt]) (fun _ _ => Some (lit "Bob"))
    7 with_ada = (None, []).
Proof.
  apply (@recognition_gated nat unit (fun _ : nat => [tt])
           (fun _ _ => Some (lit "Bob")) 7 with_ada).
  reflexivity.
Defined.

Lemma router_failure_is_turn_error_witness :
  chat_loop true
    [{| keys := Typed (lit "tell me a joke");
        router_reply := Raised (lit "timeout"); stop_request := false |}]
    with_ada
  = AwaitingInput true
      (print ([0x274C%N] ++ lit " Error in chat: timeout")
         (print ([10%N] ++ lit "Ada: ") with_ada)).
Proof.
  pose proof (@router_failure_is_turn_error true (lit "tell me a joke")
                (lit "timeout") false [] with_ada
                eq_refl eq_refl eq_refl) as H.
  cbv zeta in H.
  destruct H as (_ & _ & _ & _ & _ & _ & _ & _ & Hwait).
  rewrite (Hwait eq_refl). reflexivity.
Defined.

(** ** What a session keeps *)

(** The fields no chat turn writes. *)
Definition kept (before after : SmartVisionBot) : Prop :=
  identified after = identified before /\
  current_person after = current_person before /\
  last_greeting_time after = last_greeting_time before /\
  chat_threads after = chat_threads before /\
  TTS.engine (tts_engine after) = TTS.engine (tts_engine before).

Lemma kept_refl bot : kept bot bot.
Proof. repeat split. Qed.

Lemma kept_trans a b c : kept a b -> kept b c -> kept a c.
Proof.
  unfold kept. intros (H1 & H2 & H3 & H4 & H5) (K1 & K2 & K3 & K4 & K5).
  repeat split; congruence.
Qed.

Lemma print_kept line bot : kept bot (print line bot).
Proof. repeat split. Qed.

Lemma tts_speak_engine text interrupt b t :
  TTS.engine (fst (TTS.speak text interrupt b t)) = TTS.engine t.
Proof.
  unfold TTS.speak. destruct (TTS.engine t) eqn:He; cbn [negb].
  - destruct (TTS.is_empty text || TTS.is_empty (strip text));
      [exact He |].
    destruct interrupt.
    + unfold TTS.stop_current_speech. rewrite He. cbn [andb].
      destruct (TTS.is_speaking t); [destruct b |]; cbn; auto.
    + cbn. exact He.
  - exact He.
Qed.

Lemma speak_tts text bot :
  tts_engine (speak text bot)
  = fst (TTS.speak text false (Returned TTS.quiet) (tts_engine bot)).
Proof.
  unfold speak.
  destruct (TTS.speak text false (Returned TTS.quiet) (tts_engine bot));
    reflexivity.
Qed.

Lemma speak_kept text bot : kept bot (speak text bot).
Proof.
  unfold kept. rewrite speak_tts, tts_speak_engine. unfold speak.
  destruct (TTS.speak text false (Returned TTS.quiet) (tts_engine bot)).
  repeat split.
Qed.

Lemma speak_running text bot : running (speak text bot) = running bot.
Proof.
  unfold speak.
  destruct (TTS.speak text false (Returned TTS.quiet) (tts_engine bot));
    reflexivity.
Qed.

Lemma chat_turn_kept voice_enabled t bot :
  kept bot (fst (chat_turn voice_enabled t bot)) /\
  running (fst (chat_turn voice_enabled t bot)) = running bot.
Proof.
  unfold chat_turn. cbv zeta.
  set (bot0 := print ([10%N] ++ person bot ++ lit ": ") bot).
  assert (H0 : kept bot bot0) by apply print_kept.
  destruct (keys t) as [line | e |]; cbn [fst].
  - destruct (existsb (str_eqb (lower (strip line))) end_phrases).
    { destruct voice_enabled; cbn [fst].
      - split.
        + eapply kept_trans; [exact H0 |].
          eapply kept_trans; [apply print_kept | apply speak_kept].
        + now rewrite speak_running.
      - split; [| reflexivity].
        eapply kept_trans; [exact H0 | apply print_kept]. }
    destruct (str_eqb (lower (strip line)) (lit "voice on")).
    { cbn [fst]. split; [| reflexivity].
      eapply kept_trans; [exact H0 | apply print_kept]. }
    destruct (str_eqb (lower (strip line)) (lit "voice off")).
    { cbn [fst]. split; [| reflexivity].
      eapply kept_trans; [exact H0 | apply print_kept]. }
    destruct (TTS.is_empty (strip line)).
    { cbn [fst]. split; [exact H0 | reflexivity]. }
    destruct (router_reply t) as [response | e].
    + destruct voice_enabled; cbn [fst].
      * split.
        -- eapply kept_trans; [exact H0 |].
           eapply kept_trans; [apply print_kept | apply speak_kept].
        -- now rewrite speak_running.
      * split; [| reflexivity].
        eapply kept_trans; [exact H0 | apply print_kept].
    + cbn [fst]. split; [| reflexivity].
      eapply kept_trans; [exact H0 | apply print_kept].
  - split; [| reflexivity].
    eapply kept_trans; [exact H0 | apply print_kept].
  - split; [exact H0 | reflexivity].
Qed.

Lemma stop_seen_kept t bot : kept bot (stop_seen t bot).
Proof. unfold stop_seen. destruct (stop_request t); repeat split. Qed.

Lemma chat_loop_kept script : forall voice_enabled bot,
  match chat_loop voice_enabled script bot with
  | Ended b => kept bot b
  | AwaitingInput _ b =>
      kept bot b /\ identified b = true /\ running b = true
  end.
Proof.
  induction script as [| t rest IH]; intros v bot; cbn [chat_loop].
  - destruct (identified bot && running bot) eqn:Hgo.
    + apply andb_true_iff in Hgo. destruct Hgo.
      split; [apply kept_refl | auto].
    + apply kept_refl.
  - destruct (identified bot && running bot); [| apply kept_refl].
    pose proof (chat_turn_kept v t bot) as [Hk _].
    destruct (chat_turn v t bot) as [bot1 [v1 |]]; cbn [fst] in Hk.
    + specialize (IH v1 (stop_seen t bot1)).
      pose proof (kept_trans Hk (stop_seen_kept t bot1)) as Hk1.
      destruct (chat_loop v1 rest (stop_seen t bot1)) as [b | v2 b].
      * exact (kept_trans Hk1 IH).
      * destruct IH as (Hk2 & Hid & Hrun).
        split; [exact (kept_trans Hk1 Hk2) | auto].
    + exact Hk.
Qed.

Definition header (bot : SmartVisionBot) : SmartVisionBot :=
  print (repeat 45%N 50)
    (print (lit "Type 'voice on/off' to toggle voice responses")
       (print (lit "Type 'quit' or 'exit' to end the session")
          (print ([10%N; 0x1F4AC%N] ++ lit " Chat session started with "
                  ++ person bot) bot))).

Lemma start_chat_session_unfold script bot :
  start_chat_session script bot
  = match chat_loop true script (header bot) with
    | Ended b => Ended (reset_state b)
    | AwaitingInput v b => AwaitingInput v b
    end.
Proof. reflexivity. Qed.

(** X15.  However a chat session ends (end phrase, keyboard interrupt,
    stop request, nobody identified), it ends cleaned up: [identified] is
    false, [current_person] is [None] and the chat history is empty; while
    it waits for input the person is still identified and still the same.
    In both cases the session has left the debounce time and the engine's
    availability alone. *)
Theorem session_outcome (script : list turn) (bot : SmartVisionBot) :
  match start_chat_session script bot with
  | Ended b =>
      identified b = false /\ current_person b = None /\
      chat_history b = [] /\
      last_greeting_time b = last_greeting_time bot /\
      chat_threads b = chat_threads bot /\
      TTS.engine (tts_engine b) = TTS.engine (tts_engine bot)
  | AwaitingInput _ b =>
      identified b = true /\ running b = true /\
      identified bot = true /\
      current_person b = current_person bot /\
      last_greeting_time b = last_greeting_time bot /\
      chat_threads b = chat_threads bot /\
      TTS.engine (tts_engine b) = TTS.engine (tts_engine bot)
  end.
Proof.
  rewrite start_chat_session_unfold.
  pose proof (chat_loop_kept script true (header bot)) as H.
  destruct (chat_loop true script (header bot)) as [b | v b].
  - destruct H as (_ & _ & H3 & H4 & H5). cbn.
    repeat split; assumption.
  - destruct H as ((H1 & H2 & H3 & H4 & H5) & Hid & Hrun). cbn in *.
    repeat split; try assumption. now rewrite <- H1.
Qed.

(** X16.  With voice responses disabled no turn touches the speech
    engine: replies and the farewell are printed but never queued. *)
Theorem voice_off_never_speaks (t : turn) (bot : SmartVisionBot) :
  tts_engine (fst (chat_turn false t bot)) = tts_engine bot /\
  (forall line response stop,
      for_router line = true ->
      console (fst (chat_turn false
                      {| keys := Typed line;
                         router_reply := Returned response;
                         stop_request := stop |} bot))
      = console bot
        ++ [[10%N] ++ person bot ++ lit ": "; robot_says response]) /\
  (forall line reply stop,
      existsb (str_eqb (lower (strip line))) end_phrases = true ->
      snd (chat_turn false
             {| keys := Typed line; router_reply := reply;
                stop_request := stop |} bot) = Break /\
      console (fst (chat_turn false
                      {| keys := Typed line; router_reply := reply;
                         stop_request := stop |} bot))
      = console bot
        ++ [[10%N] ++ person bot ++ lit ": ";
            [0x1F916%N] ++ lit ": Goodbye " ++ person bot
            ++ lit "! Have a great day!"]).
Proof.
  split; [| split].
  3: { intros line reply stop Hend. unfold chat_turn.
       cbn [keys]. cbv zeta. rewrite Hend. cbn [fst snd print console].
       split; [reflexivity |].
       unfold person. cbn [current_person].
       now rewrite <- app_assoc. }
  - unfold chat_turn. cbv zeta.
    destruct (keys t) as [line | e |]; try reflexivity.
    destruct (existsb (str_eqb (lower (strip line))) end_phrases);
      [reflexivity |].
    destruct (str_eqb (lower (strip line)) (lit "voice on"));
      [reflexivity |].
    destruct (str_eqb (lower (strip line)) (lit "voice off"));
      [reflexivity |].
    destruct (TTS.is_empty (strip line)); [reflexivity |].
    destruct (router_reply t); reflexivity.
  - intros line response stop Hline. unfold for_router in Hline.
    apply andb_true_iff in Hline. destruct Hline as [Hline Hblank].
    apply andb_true_iff in Hline. destruct Hline as [Hline Hoff].
    apply andb_true_iff in Hline. destruct Hline as [Hend Hon].
    apply negb_true_iff in Hend, Hon, Hoff, Hblank.
    unfold chat_turn. cbn [keys router_reply]. cbv zeta.
    rewrite Hend, Hon, Hoff, Hblank. cbn [fst print console].
    now rewrite <- app_assoc.
Qed.

(** What the keyboard gives reaches the router. *)
Definition reaches_router (k : keyboard) : bool :=
  match k with
  | Typed line => for_router line
  | _ => false
  end.

(** X17.  End phrases, the voice commands, blank lines and failed inputs
    never reach the router: the turn comes out the same whatever the
    router would have done. *)
Theorem commands_bypass_router (voice_enabled : bool) (k : keyboard)
    (reply1 reply2 : py_result str) (stop : bool) (bot : SmartVisionBot) :
  reaches_router k = false ->
  chat_turn voice_enabled
    {| keys := k; router_reply := reply1; stop_request := stop |} bot
  = chat_turn voice_enabled
      {| keys := k; router_reply := reply2; stop_request := stop |} bot.
Proof.
  intros Hk. unfold chat_turn. cbn [keys router_reply]. cbv zeta.
  destruct k as [line | e |]; try reflexivity.
  cbn [reaches_router] in Hk. unfold for_router in Hk.
  destruct (existsb (str_eqb (lower (strip line))) end_phrases);
    [reflexivity |].
  destruct (str_eqb (lower (strip line)) (lit "voice on")); [reflexivity |].
  destruct (str_eqb (lower (strip line)) (lit "voice off"));
    [reflexivity |].
  destruct (TTS.is_empty (strip line)); [reflexivity |].
  discriminate Hk.
Qed.

(** ** Greeting and session together *)

(** X18.  A session started right after a greeting that the debounce
    suppressed, on a bot that has nobody identified, reads no input and
    ends at once: only the four header lines and the closing
    line are printed, nobody is identified afterwards, and the speech
    engine and the debounce time are as they were. *)
Theorem suppressed_greeting_idle_session (name : str) (current_time : Q)
    (shown test1 test2 : datetime) (script : list turn)
    (bot : SmartVisionBot) :
  identified bot = false ->
  (current_time - last_greeting_time bot < 15)%Q ->
  start_chat_session script
    (greet_person name current_time shown test1 test2 bot)
  = Ended (reset_state (header bot)) /\
  identified (reset_state (header bot)) = false /\
  tts_engine (reset_state (header bot)) = tts_engine bot /\
  last_greeting_time (reset_state (header bot)) = last_greeting_time bot /\
  console (reset_state (header bot))
  = console bot
    ++ [[10%N; 0x1F4AC%N] ++ lit " Chat session started with "
        ++ match current_person bot with
           | Some n => n
           | None => lit "None"
           end;
        lit "Type 'quit' or 'exit' to end the session";
        lit "Type 'voice on/off' to toggle voice responses";
        repeat 45%N 50;
        [10%N; 0x1F504%N]
        ++ lit " Chat session ended. Looking for faces again..."].
Proof.
  intros Hid Hlt. apply Qltb_lt in Hlt.
  assert (Hsame : greet_person name current_time shown test1 test2 bot = bot).
  { unfold greet_person. now rewrite Hlt. }
  rewrite Hsame. split.
  - rewrite start_chat_session_unfold.
    assert (Hgo : identified (header bot) && running (header bot) = false).
    { cbn. now rewrite Hid. }
    destruct script; cbn [chat_loop]; now rewrite Hgo.
  - repeat split. cbn [reset_state header print console].
    unfold person. repeat rewrite <- app_assoc. reflexivity.
Qed.

(** X19.  Greeting and goodbye.  A running bot with a speech engine
    accepts a greeting and the person's first input is an end phrase (in
    any letter case, padded or not): the session ends with nobody
    identified and an empty chat history, the debounce time at the time of
    the greeting, and exactly two utterances added to the queue, the
    sanitized greeting and then the sanitized farewell to that person. *)
Theorem greet_then_quit (name : str) (current_time : Q)
    (shown test1 test2 : datetime) (line : str) (reply : py_result str)
    (stop : bool) (bot : SmartVisionBot) :
  running bot = true ->
  TTS.engine (tts_engine bot) = true ->
  (15 <= current_time - last_greeting_time bot)%Q ->
  existsb (str_eqb (lower (strip line))) end_phrases = true ->
  exists b,
    start_chat_session
      [{| keys := Typed line; router_reply := reply; stop_request := stop |}]
      (greet_person name current_time shown test1 test2 bot)
    = Ended b /\
    identified b = false /\ current_person b = None /\
    chat_history b = [] /\
    last_greeting_time b = current_time /\
    chat_threads b = chat_threads bot /\
    TTS.speech_queue (tts_engine b)
    = TTS.speech_queue (tts_engine bot)
      ++ [TTS._clean_text_for_speech
            (greeting_text name shown test1 test2);
          TTS._clean_text_for_speech
            (lit "Goodbye " ++ name ++ lit "! Have a great day!")].
Proof.
  intros Hrun He Hge Hend. apply Qltb_ge in Hge.
  rewrite (@greet_person_accepted name current_time shown test1 test2 bot
             Hge).
  cbv zeta.
  match goal with
  | |- context [start_chat_session _ ?g] => set (greeted := g)
  end.
  assert (Hgo : identified (header greeted) && running (header greeted)
                = true).
  { cbn. now rewrite Hrun. }
  rewrite start_chat_session_unfold. cbn [chat_loop]. rewrite Hgo.
  unfold chat_turn. cbn [keys]. cbv zeta. rewrite Hend.
  set (asked := print ([10%N] ++ person (header greeted) ++ lit ": ")
                  (header greeted)).
  change (person asked) with name.
  set (bye := lit "Goodbye " ++ name ++ lit "! Have a great day!").
  set (told := print (robot_says bye) asked).
  exists (reset_state (speak bye told)).
  split; [reflexivity |].
  destruct (speak_kept bye told) as (_ & _ & K3 & K4 & _).
  cbn [reset_state identified current_person chat_history
       last_greeting_time chat_threads tts_engine].
  split; [reflexivity |]. split; [reflexivity |]. split; [reflexivity |].
  split; [rewrite K3; reflexivity |].
  split; [rewrite K4; reflexivity |].
  rewrite speak_tts.
  change (tts_engine told)
    with (fst (TTS.speak (greeting_text name shown test1 test2) false
                 (Returned TTS.quiet) (tts_engine bot))).
  rewrite TTS.speak_queue, tts_speak_engine, He.
  assert (Hbye : TTS.is_empty bye || TTS.is_empty (strip bye) = false)
    by (now apply not_blank).
  rewrite Hbye. cbn [negb andb].
  rewrite TTS.speak_queue, He,
    (greeting_not_blank name shown test1 test2).
  cbn [negb andb]. now rewrite <- app_assoc.
Qed.

(** ** More concrete runs *)

(** Ada has left: the bot is watching again, her greeting 100 seconds
    into the clock. *)
Definition after_ada : SmartVisionBot :=
  match start_chat_session
          [{| keys := Typed (lit "bye"); router_reply := Raised [];
              stop_request := false |}] with_ada with
  | Ended b => b
  | AwaitingInput _ b => b
  end.

Lemma commands_bypass_router_witness :
  chat_turn true
    {| keys := Typed (lit "  Voice OFF "); router_reply := Raised (lit "x");
       stop_request := false |} with_ada
  = chat_turn true
      {| keys := Typed (lit "  Voice OFF ");
         router_reply := Returned (lit "y"); stop_request := false |}
      with_ada.
Proof.
  apply (@commands_bypass_router true (Typed (lit "  Voice OFF "))
           (Raised (lit "x")) (Returned (lit "y")) false with_ada).
  reflexivity.
Defined.

Lemma suppressed_greeting_idle_session_witness :
  start_chat_session []
    (greet_person (lit "Bob") 105%Q nine_five nine_five nine_five after_ada)
  = Ended (reset_state (header after_ada)).
Proof.
  apply (@suppressed_greeting_idle_session (lit "Bob") 105%Q nine_five
           nine_five nine_five [] after_ada eq_refl).
  reflexivity.
Defined.

Lemma greet_then_quit_witness :
  exists b,
    start_chat_session
      [{| keys := Typed (lit " QUIT "); router_reply := Raised [];
          stop_request := false |}]
      (greet_person (lit "Bob") 200%Q nine_five nine_five nine_five
         after_ada)
    = Ended b /\
    identified b = false /\ last_greeting_time b = 200%Q.
Proof.
  assert (Hge : (15 <= 200 - last_greeting_time after_ada)%Q)
    by discriminate.
  destruct (@greet_then_quit (lit "Bob") 200%Q nine_five nine_five
              nine_five (lit " QUIT ") (Raised []) false after_ada
              eq_refl eq_refl Hge eq_refl)
    as (b & Hend & Hid & _ & _ & Ht & _).
  exists b. repeat split; assumption.
Defined.

End App.

(* ===================================================================== *)
(** * camera/detect.py *)
(* ===================================================================== *)

Module Detect.

(** One row [detections[0, 0, i, :]] of the network output: the confidence,
    and the corners [(x, y, x1, y1)] once scaled by the frame size and cast
    to integers. *)
Record detection : Type := mkDetection {
  confidence : Q;
  left : Z;
  top : Z;
  right : Z;
  bottom : Z
}.

(** A face: [(x, y, w, h)]. *)
Definition face : Type := (Z * Z * Z * Z)%type.

(** The body of the loop of [FaceDetector.detect] for a detection that is
    confident enough, in a frame [w] wide and [h] high. *)
Definition clip (w h : Z) (d : detection) : option face :=
  let width := (right d - left d)%Z in
  let height := (bottom d - top d)%Z in
  let x := Z.max 0 (left d) in
  let y := Z.max 0 (top d) in
  let width := Z.min width (w - x) in
  let height := Z.min height (h - y) in
  if (0 <? width)%Z && (0 <? height)%Z
  then Some (x, y, width, height)
  else None.

Fixpoint faces_of (threshold : Q) (w h : Z) (ds : list detection)
  : list face :=
  match ds with
  | [] => []
  | d :: rest =>
      if App.Qltb threshold (confidence d) then
        match clip w h d with
        | Some f => f :: faces_of threshold w h rest
        | None => faces_of threshold w h rest
        end
      else faces_of threshold w h rest
  end.

(** [FaceDetector.detect]; [net_loaded] tells whether [self.net] is set. *)
Definition detect (net_loaded : bool) (threshold : Q) (w h : Z)
    (ds : list detection) : list face :=
  if negb net_loaded then [] else faces_of threshold w h ds.

Definition area (f : face) : Z :=
  match f with (_, _, w, h) => (w * h)%Z end.

(** [max(faces, key=...)] with [best] the largest face so far: a later
    face wins only when it is strictly larger. *)
Fixpoint largest (best : face) (faces : list face) : face :=
  match faces with
  | [] => best
  | f :: rest =>
      if (area best <? area f)%Z then largest f rest else largest best rest
  end.

(** [FaceDetector.detect_largest], on the faces that [detect] found. *)
Definition detect_largest (faces : list face) : option face :=
  match faces with
  | [] => None
  | f :: rest => Some (largest f rest)
  end.

(** A face lies inside the frame and is not empty. *)
Definition inside (w h : Z) (f : face) : Prop :=
  match f with
  | (x, y, fw, fh) =>
      (0 <= x /\ 0 <= y /\ 0 < fw /\ 0 < fh /\ x + fw <= w /\ y + fh <= h)%Z
  end.

Lemma clip_inside w h d f : clip w h d = Some f -> inside w h f.
Proof.
  unfold clip. cbv zeta.
  destruct (0 <? Z.min (right d - left d) (w - Z.max 0 (left d)))%Z eqn:Hw;
    [| discriminate].
  destruct (0 <? Z.min (bottom d - top d) (h - Z.max 0 (top d)))%Z eqn:Hh;
    [| discriminate].
  cbn [andb]. intros H. injection H as <-.
  apply Z.ltb_lt in Hw, Hh. unfold inside. lia.
Qed.

(** X4.  Every face that [detect] returns is a non-empty box inside the
    frame, and comes from a detection whose confidence is above the
    threshold; without a loaded network nothing is returned. *)
Theorem detect_inside_frame (net_loaded : bool) (threshold : Q) (w h : Z)
    (ds : list detection) (f : face) :
  In f (detect net_loaded threshold w h ds) ->
  net_loaded = true /\
  inside w h f /\
  exists d, In d ds /\ (threshold < confidence d)%Q /\ clip w h d = Some f.
Proof.
  unfold detect. destruct net_loaded; cbn [negb]; [| intros []].
  intros Hin. split; [reflexivity |].
  induction ds as [| d rest IH]; [destruct Hin |].
  cbn [faces_of] in Hin.
  assert (Hrest : In f (faces_of threshold w h rest) ->
                  inside w h f /\
                  exists d0, In d0 (d :: rest) /\
                             (threshold < confidence d0)%Q /\
                             clip w h d0 = Some f).
  { intros H. destruct (IH H) as (Hi & d0 & Hd0 & Hc & Hclip).
    split; [exact Hi |]. exists d0. repeat split; auto. now right. }
  destruct (App.Qltb threshold (confidence d)) eqn:Hconf; [| auto].
  destruct (clip w h d) as [f0 |] eqn:Hclip; [| auto].
  destruct Hin as [<- | Hin]; [| auto].
  split; [now apply (clip_inside w h d) |].
  exists d. repeat split; [now left | now apply App.Qltb_lt | exact Hclip].
Qed.

Lemma largest_spec faces : forall best,
  (In (largest best faces) (best :: faces)) /\
  (forall f, In f (best :: faces) ->
             (area f <= area (largest best faces))%Z).
Proof.
  induction faces as [| f rest IH]; intros best.
  - simpl. split; [now left |]. intros f [<- | []]. lia.
  - cbn [largest]. destruct (area best <? area f)%Z eqn:Hlt.
    + apply Z.ltb_lt in Hlt. destruct (IH f) as [Hin Hmax]. split.
      * right. exact Hin.
      * intros g [<- | Hg]; [| now apply Hmax].
        specialize (Hmax f (or_introl eq_refl)). lia.
    + apply Z.ltb_ge in Hlt. destruct (IH best) as [Hin Hmax]. split.
      * destruct Hin as [Hin | Hin]; [now left | right; now right].
      * intros g [<- | [<- | Hg]].
        -- apply Hmax. now left.
        -- specialize (Hmax best (or_introl eq_refl)). lia.
        -- apply Hmax. now right.
Qed.

(** X5.  [detect_largest] answers [None] exactly on an empty list, and
    otherwise one of the faces, of an area no other face exceeds. *)
Theorem detect_largest_is_largest (faces : list face) :
  match detect_largest faces with
  | None => faces = []
  | Some f =>
      In f faces /\ forall g, In g faces -> (area g <= area f)%Z
  end.
Proof.
  destruct faces as [| f rest]; [reflexivity |].
  cbn [detect_largest]. apply largest_spec.
Qed.

(** A detection that sticks out of a 640 by 480 frame on the left. *)
Definition sticking_out : detection :=
  {| confidence := 0.9%Q; left := (-20)%Z; top := 10%Z;
     right := 100%Z; bottom := 200%Z |}.

Lemma detect_inside_frame_witness :
  inside 640 480 (0, 10, 120, 190)%Z.
Proof.
  apply (@detect_inside_frame true 0.7%Q 640%Z 480%Z [sticking_out]
           (0, 10, 120, 190)%Z).
  left. reflexivity.
Defined.

End Detect.

(* ===================================================================== *)
(** * chatbot/llm_client.py *)
(* ===================================================================== *)

Module LLM.
Import Py.

(** [is_real_time_query] *)
Definition is_real_time_query (prompt : str) : bool :=
  existsb (fun k => contains k (lower prompt))
    (map lit ["latest"; "current"; "today"; "now"; "2025"; "as of"]%string).

Definition no_key_message : str := lit "Groq API key not found.".

Section Sources.

(** The environment variable, and the three look-ups, each of which
    catches its own exceptions and answers a string, empty on failure. *)
Variable GROQ_API_KEY : option str.
Variable fetch_duckduckgo : str -> str.
Variable fetch_wikipedia : str -> str.
Variable _query_groq_llm : str -> str.

(** [not GROQ_API_KEY] *)
Definition key_missing : bool :=
  match GROQ_API_KEY with
  | None => true
  | Some k => TTS.is_empty k
  end.

(** [query_groq] *)
Definition query_groq (prompt : str) : str :=
  if key_missing then no_key_message
  else if is_real_time_query prompt then
    let ans := fetch_duckduckgo prompt in
    if negb (TTS.is_empty ans) then ans ++ lit " (DuckDuckGo, real-time)"
    else
      let ans := fetch_wikipedia prompt in
      if negb (TTS.is_empty ans) then ans ++ lit " (Wikipedia, latest)"
      else _query_groq_llm prompt
  else _query_groq_llm prompt.

(** Every source the prompt is sent to comes back empty. *)
Definition all_sources_empty (prompt : str) : bool :=
  TTS.is_empty (_query_groq_llm prompt)
  && (negb (is_real_time_query prompt)
      || TTS.is_empty (fetch_duckduckgo prompt)
         && TTS.is_empty (fetch_wikipedia prompt)).

Lemma is_empty_app (a b : str) :
  TTS.is_empty b = false -> TTS.is_empty (a ++ b) = false.
Proof. destruct a; [auto | reflexivity]. Qed.

(** X13.  [query_groq] answers the empty string exactly when the key is
    set and every source it asks comes back empty (the look-ups being
    asked for real-time prompts only); without a key it answers the fixed
    message and asks nobody. *)
Theorem query_groq_empty_answer (prompt : str) :
  TTS.is_empty (query_groq prompt)
  = negb key_missing && all_sources_empty prompt /\
  (key_missing = true ->
   query_groq prompt = lit "Groq API key not found.").
Proof.
  split; [| intros Hk; unfold query_groq; now rewrite Hk].
  unfold query_groq, all_sources_empty.
  destruct key_missing; [reflexivity |]. cbn [negb andb].
  destruct (is_real_time_query prompt); cbn [negb orb];
    [| now rewrite andb_true_r].
  destruct (TTS.is_empty (fetch_duckduckgo prompt)) eqn:Hd; cbn [negb andb].
  - destruct (TTS.is_empty (fetch_wikipedia prompt)) eqn:Hw; cbn [negb].
    + now rewrite andb_true_r.
    + rewrite andb_false_r. now apply is_empty_app.
  - rewrite andb_false_r. now apply is_empty_app.
Qed.

Section Routed.

Variable is_word : N -> bool.
Variable same_letter : N -> N -> bool.
Variable get_weather : str -> py_result str.
Variable get_news : str -> py_result Router.news_value.
Variable extract_ticker : str -> py_result (option str).
Variable get_price_for_ticker : str -> py_result str.

(** [router.route] with [llm.query_groq] as its last step. *)
Definition route : option str -> list message -> py_result (str * str) :=
  Router.route is_word same_letter get_weather get_news extract_ticker
    get_price_for_ticker (fun q => Returned (query_groq q)).

(** X14.  For a query that is no weather, news or finance query, the
    router's reply is what [query_groq] answers, tagged ["ai"], and the
    ["system"] fallback exactly when that answer is empty.  So without an
    API key the reply is the missing-key message, presented as an answer
    of the model. *)
Theorem route_with_query_groq (query : option str)
    (chat_history : list message) :
  Router._is_weather is_word same_letter (Router.cleaned query) = false ->
  Router._is_news is_word same_letter (Router.cleaned query) = false ->
  Router._is_finance is_word same_letter (Router.cleaned query) = false ->
  route query chat_history
  = (if TTS.is_empty (query_groq (Router.cleaned query))
     then Router.system Router.fallback
     else Returned (lit "ai", query_groq (Router.cleaned query))) /\
  (key_missing = true ->
   route query chat_history = Returned (lit "ai", no_key_message)).
Proof.
  intros Hw Hn Hf.
  assert (Hroute :
    route query chat_history
    = if TTS.is_empty (query_groq (Router.cleaned query))
      then Router.system Router.fallback
      else Returned (lit "ai", query_groq (Router.cleaned query))).
  { unfold route, Router.route. fold (Router.cleaned query).
    rewrite (Router.route_body_llm is_word same_letter get_weather get_news
               extract_ticker get_price_for_ticker
               (fun q => Returned (query_groq q)) (Router.cleaned query)
               Hw Hn Hf).
    destruct (query_groq (Router.cleaned query)); reflexivity. }
  split; [exact Hroute |].
  intros Hkey. rewrite Hroute. unfold query_groq. rewrite Hkey.
  reflexivity.
Qed.

End Routed.

End Sources.

Lemma route_with_query_groq_witness :
  route None (fun _ => lit "x") (fun _ => lit "y") (fun _ => lit "z")
    Router.ascii_word Router.ascii_same_letter
    (fun _ => Returned (lit "sunny"))
    (fun _ => Returned (Router.NewsList []))
    (fun _ => Returned None)
    (fun _ => Returned (lit "0"))
    (Some (lit "hello there")) []
  = Returned (lit "ai", no_key_message).
Proof.
  apply (@route_with_query_groq None (fun _ => lit "x") (fun _ => lit "y")
           (fun _ => lit "z")
           Router.ascii_word Router.ascii_same_letter
           (fun _ => Returned (lit "sunny"))
           (fun _ => Returned (Router.NewsList []))
           (fun _ => Returned None)
           (fun _ => Returned (lit "0"))
           (Some (lit "hello there")) [] eq_refl eq_refl eq_refl).
  reflexivity.
Defined.

End LLM.
